(** * Indexed-TS pipeline of the v3d_server backend

    Shallow embedding of the parts of [backend/app/utils/video_converter.py],
    [backend/app/utils/file_converter.py], [backend/app/utils/storage.py] and
    [backend/app/api/videos.py] that build the indexed transport stream and
    orchestrate a batch upload. *)

From Stdlib Require Import ZArith NArith List String Ascii Bool Lia.
From Stdlib Require Import Sorting.Sorted Sorting.Permutation.
Import ListNotations.
Open Scope Z_scope.

(* ------------------------------------------------------------------ *)
(** ** Python exceptions and a writer/error monad for file output *)

(** The exceptions the modelled code paths raise. *)
Inductive exn :=
| OverflowError                  (* int.to_bytes: value does not fit *)
| TypeError                      (* len(None) *)
| AttributeError                 (* None.to_bytes *)
| ValueError (msg : string)      (* int('...') or an explicit raise *)
| IndexError                     (* list index out of range *)
| CalledProcessError (rc : Z)    (* subprocess.run(..., check=True) *)
| RuntimeError (msg : string)
| HTTPException (status_code : Z).

(** A computation that appends bytes to the file opened with [open(.., 'wb')]
    and may raise.  The state is the content written so far. *)
Definition fout (A : Type) : Type := list Z -> list Z * (exn + A).

Definition fret {A} (a : A) : fout A := fun w => (w, inr a).
Definition fraise {A} (e : exn) : fout A := fun w => (w, inl e).
Definition fbind {A B} (m : fout A) (k : A -> fout B) : fout B :=
  fun w => match m w with
           | (w', inl e) => (w', inl e)
           | (w', inr a) => k a w'
           end.

Notation "x <- m ;; k" := (fbind m (fun x => k))
  (at level 61, m at next level, right associativity).
Notation "m ;;; k" := (fbind m (fun _ => k))
  (at level 61, right associativity).

(** [f.write(bs)] *)
Definition fwrite (bs : list Z) : fout unit := fun w => (w ++ bs, inr tt).

(** Running a writer on a freshly truncated file ([open(output_file, 'wb')]):
    the final file content and the outcome. *)
Definition run_file {A} (m : fout A) : list Z * (exn + A) := m [].

(* ------------------------------------------------------------------ *)
(** ** [int.to_bytes(length, byteorder='little')] *)

Fixpoint le_bytes (len : nat) (n : Z) : list Z :=
  match len with
  | O => []
  | S k => Z.land n 255 :: le_bytes k (Z.shiftr n 8)
  end.

(** Unsigned conversion: Python raises [OverflowError] for a negative value
    ("can't convert negative int to unsigned") and for one that needs more
    than [len] bytes ("int too big to convert"). *)
Definition to_bytes (n : Z) (len : nat) : fout (list Z) :=
  if (0 <=? n) && (n <? 2 ^ (8 * Z.of_nat len))
  then fret (le_bytes len n)
  else fraise OverflowError.

(** Little-endian decoding ([int.from_bytes(bs, 'little')]). *)
Fixpoint from_le (bs : list Z) : Z :=
  match bs with
  | [] => 0
  | b :: rest => b + 256 * from_le rest
  end.

(* ------------------------------------------------------------------ *)
(** ** Header Builder: [add_header] *)

(** A Python [dict[int, int]] built by the scanner: its items in insertion
    order ([indices.items()]). *)
Definition gop_index := list (Z * Z).

(** [b'TSGOPIDX'] *)
Definition magic : list Z := [84; 83; 71; 79; 80; 73; 68; 88].

(** The loop [for frame_index, offset in indices.items(): ...]. *)
Fixpoint write_entries (header_size : Z) (idx : gop_index) : fout unit :=
  match idx with
  | [] => fret tt
  | (frame_index, offset) :: rest =>
      fi <- to_bytes frame_index 4 ;;
      fwrite fi ;;;
      ob <- to_bytes (offset + header_size) 8 ;;
      fwrite ob ;;;
      write_entries header_size rest
  end.

(** [add_header(input_file, output_file, indices, nframe)]: [payload] is the
    content of [input_file] ([ts_file.read()]); the Python [None] that the
    scanner returns on failure is [None] here.  [len(None)] raises
    [TypeError], [None.to_bytes] raises [AttributeError]. *)
Definition add_header (payload : list Z) (indices : option gop_index)
    (nframe : option Z) : fout unit :=
  fwrite magic ;;;
  match indices with
  | None => fraise TypeError
  | Some idx =>
      let header_size := 8 + 4 + 4 + 4 + Z.of_nat (List.length idx) * (4 + 8) in
      hs <- to_bytes header_size 4 ;;
      fwrite hs ;;;
      cnt <- to_bytes (Z.of_nat (List.length idx)) 4 ;;
      fwrite cnt ;;;
      match nframe with
      | None => fraise AttributeError
      | Some nf =>
          nb <- to_bytes nf 4 ;;
          fwrite nb ;;;
          write_entries header_size idx ;;;
          fwrite payload
      end
  end.

(** The header size [add_header] computes for an index. *)
Definition header_size_of (idx : gop_index) : Z :=
  8 + 4 + 4 + 4 + Z.of_nat (List.length idx) * (4 + 8).

(** The bytes of one index entry as written when both conversions succeed. *)
Definition entry_bytes (hs : Z) (e : Z * Z) : list Z :=
  le_bytes 4 (fst e) ++ le_bytes 8 (snd e + hs).

(** Modelled from the spec: the reader of the Indexed-TS format (the field
    table of section 4.2); no reader of the format is present in src/.  It
    returns magic, header size, entry count, frame count, the decoded table
    and the payload (the bytes after [header size]). *)
Fixpoint read_entries (n : nat) (bs : list Z) : list (Z * Z) :=
  match n with
  | O => []
  | S k => (from_le (firstn 4 bs), from_le (firstn 8 (skipn 4 bs)))
             :: read_entries k (skipn 12 bs)
  end.

Definition read_indexed_ts (bs : list Z)
  : option (list Z * Z * Z * Z * list (Z * Z) * list Z) :=
  if Nat.ltb (List.length bs) 20 then None else
  let mg := firstn 8 bs in
  let hs := from_le (firstn 4 (skipn 8 bs)) in
  let cnt := from_le (firstn 4 (skipn 12 bs)) in
  let nf := from_le (firstn 4 (skipn 16 bs)) in
  if Nat.ltb (List.length bs) (Z.to_nat hs) then None else
  Some (mg, hs, cnt, nf, read_entries (Z.to_nat cnt) (skipn 20 bs),
        skipn (Z.to_nat hs) bs).


(** A GOP index with the [n] entries [(0, 0), ..., (n - 1, 0)], built without
    enumerating it so that very large sizes can be reasoned about. *)
Definition gop_range (n : N) : gop_index :=
  N.peano_rect (fun _ => gop_index) [] (fun k acc => acc ++ [(Z.of_N k, 0)]) n.

(* ------------------------------------------------------------------ *)
(** ** Python string helpers *)

Local Open Scope string_scope.

Definition dquote : string := String (ascii_of_nat 34) EmptyString.
Definition squote : string := String (ascii_of_nat 39) EmptyString.
Definition backslash : string := String (ascii_of_nat 92) EmptyString.
Definition newline : ascii := ascii_of_nat 10.

(** The ASCII characters [str.strip()] removes ([str.isspace]). *)
Definition is_space (c : ascii) : bool :=
  let n := nat_of_ascii c in
  (Nat.leb 9 n && Nat.leb n 13) || (Nat.leb 28 n && Nat.leb n 32).

Fixpoint lstrip (s : string) : string :=
  match s with
  | EmptyString => EmptyString
  | String c rest => if is_space c then lstrip rest else s
  end.

Fixpoint rev_string (s : string) : string :=
  match s with
  | EmptyString => EmptyString
  | String c rest => rev_string rest ++ String c EmptyString
  end.

(** [s.strip()] *)
Definition strip (s : string) : string := rev_string (lstrip (rev_string (lstrip s))).

(** [s.split(sep)] for a one-character separator: ["a,,b".split(',')] is
    [['a', '', 'b']] and [''.split(',')] is [['']]. *)
Fixpoint split_on (sep : ascii) (s : string) : list string :=
  match s with
  | EmptyString => [EmptyString]
  | String c rest =>
      if Ascii.eqb c sep then EmptyString :: split_on sep rest
      else match split_on sep rest with
           | w :: ws => String c w :: ws
           | [] => [String c EmptyString]
           end
  end.

Definition is_digit (c : ascii) : bool :=
  Nat.leb 48 (nat_of_ascii c) && Nat.leb (nat_of_ascii c) 57.

Definition digit_val (c : ascii) : Z := Z.of_nat (nat_of_ascii c) - 48.

(** Digits with single underscores between them, as [int()] accepts. *)
Fixpoint parse_digits (s : string) (acc : Z) : option Z :=
  match s with
  | EmptyString => Some acc
  | String c rest =>
      if is_digit c then parse_digits rest (acc * 10 + digit_val c)
      else if Ascii.eqb c "_" then
        match rest with
        | String c2 rest2 =>
            if is_digit c2 then parse_digits rest2 (acc * 10 + digit_val c2) else None
        | EmptyString => None
        end
      else None
  end.

(** [int(s)] on a string of ASCII characters: surrounding whitespace, an
    optional sign, then decimal digits; [None] is the [ValueError]. *)
Definition py_int (s : string) : option Z :=
  let t := strip s in
  let '(sign, body) :=
    match t with
    | String c r => if Ascii.eqb c "-" then (-1, r)
                    else if Ascii.eqb c "+" then (1, r) else (1, t)
    | EmptyString => (1, t)
    end in
  match body with
  | String c _ => if is_digit c then option_map (Z.mul sign) (parse_digits body 0) else None
  | EmptyString => None
  end.

Fixpoint dec_aux (fuel : nat) (n : N) (acc : string) : string :=
  match fuel with
  | O => acc
  | S f =>
      let acc' := String (ascii_of_N (48 + N.modulo n 10)) acc in
      if N.eqb (N.div n 10) 0 then acc' else dec_aux f (N.div n 10) acc'
  end.

(** [str(n)] for a natural number. *)
Definition py_str_nat (n : nat) : string := dec_aux (S n) (N.of_nat n) EmptyString.

(** [str.lower()] on ASCII letters.  Only the comparisons with [".mp4"],
    [".ts"], [".png"], [".json"] and [".txt"] use it, and no non-ASCII
    character lowers to one of their letters. *)
Definition lower_ascii (c : ascii) : ascii :=
  let n := nat_of_ascii c in
  if Nat.leb 65 n && Nat.leb n 90 then ascii_of_nat (n + 32) else c.

Fixpoint py_lower (s : string) : string :=
  match s with
  | EmptyString => EmptyString
  | String c rest => String (lower_ascii c) (py_lower rest)
  end.

(** [PurePosixPath(p).name]: pathlib splits [p] on ['/'] and drops the empty
    parts and the ['.'] parts (so trailing slashes, repeated slashes and
    ['.'] segments vanish; ['..'] is kept); the name is the last remaining
    part, or [''] when none remains. *)
Definition path_parts (s : string) : list string :=
  filter (fun x => negb (String.eqb x EmptyString) && negb (String.eqb x "."))
         (split_on "/" s).

Definition path_name (s : string) : string := last (path_parts s) EmptyString.

(** [name.rfind(c)]: the position of the last occurrence. *)
Fixpoint rfind_from (c : ascii) (s : string) (pos : nat) (best : option nat) : option nat :=
  match s with
  | EmptyString => best
  | String d rest => rfind_from c rest (S pos) (if Ascii.eqb d c then Some pos else best)
  end.

Definition rfind (c : ascii) (s : string) : option nat := rfind_from c s 0 None.

(** [PurePath.suffix]: [name[i:]] when [0 < i < len(name) - 1] for the last
    ['.'] at [i], else [''].  [PurePath.stem] is [name[:i]] or [name]. *)
Definition py_suffix (p : string) : string :=
  let name := path_name p in
  match rfind "." name with
  | Some i => if Nat.ltb 0 i && Nat.ltb i (String.length name - 1)
              then substring i (String.length name - i) name else EmptyString
  | None => EmptyString
  end.

Definition py_stem (p : string) : string :=
  let name := path_name p in
  match rfind "." name with
  | Some i => if Nat.ltb 0 i && Nat.ltb i (String.length name - 1)
              then substring 0 i name else name
  | None => name
  end.

(** [x or default] for an optional string. *)
Definition str_or (x : option string) (default : string) : string :=
  match x with
  | Some s => if String.eqb s EmptyString then default else s
  | None => default
  end.

(* ------------------------------------------------------------------ *)
(** ** GOP Index Scanner: [get_gop_offsets] *)

(** The outcome of [subprocess.run(cmd, ..., text=True)]. *)
Inductive proc_result :=
| Completed (returncode : Z) (stdout : string).

(** Python dict assignment [d[k] = v]: an existing key keeps its position. *)
Fixpoint dict_set (d : gop_index) (k v : Z) : gop_index :=
  match d with
  | [] => [(k, v)]
  | (k', v') :: rest => if Z.eqb k k' then (k, v) :: rest else (k', v') :: dict_set rest k v
  end.

(** [{int(line.split(',')[0]): int(line.split(',')[1]) for line in frames
      if line.split(',')[2] == 'I'}]: the filter is evaluated first, then the
    key and the value; [None] from [py_int] is the [ValueError]. *)
Fixpoint iframes_of (frames : list string) (acc : gop_index) : exn + gop_index :=
  match frames with
  | [] => inr acc
  | line :: rest =>
      let parts := split_on "," line in
      match nth_error parts 2 with
      | None => inl IndexError
      | Some t =>
          if String.eqb t "I" then
            match py_int (nth 0 parts EmptyString), py_int (nth 1 parts EmptyString) with
            | Some k, Some v => iframes_of rest (dict_set acc k v)
            | _, _ => inl (ValueError "invalid literal for int()")
            end
          else iframes_of rest acc
      end
  end.

(** [[f"{i},{line}" for i, line in enumerate(frames)]] *)
Fixpoint number_lines (i : nat) (lines : list string) : list string :=
  match lines with
  | [] => []
  | l :: rest => (py_str_nat i ++ "," ++ l) :: number_lines (S i) rest
  end.

(** The non-blank lines of the ffprobe output. *)
Definition frame_lines (out : string) : list string :=
  filter (fun line => negb (String.eqb (strip line) EmptyString))
         (split_on newline (strip out)).

(** [get_gop_offsets(file_path)].  [file_exists] is [os.path.exists]: the
    code only logs when it is false.  [ffprobe] is the result of the
    [ffprobe -show_entries frame=pict_type,pkt_pos -of csv=p=0] run; its
    lines read [pkt_pos,pict_type].  A non-zero exit raises
    [CalledProcessError] under [check=True]; both handlers return
    [(None, None)].  The [inl] branch (an exception leaving the function)
    is never taken. *)
Definition get_gop_offsets (file_exists : bool) (ffprobe : proc_result)
  : exn + (option gop_index * option Z) :=
  match ffprobe with
  | Completed rc out =>
      if negb (Z.eqb rc 0) then inr (None, None)
      else
        let frames := frame_lines out in
        let nframe := Z.of_nat (List.length frames) in
        match iframes_of (number_lines 0 frames) [] with
        | inl _ => inr (None, None)
        | inr iframes => inr (Some iframes, Some nframe)
        end
  end.

(** An output line of ffprobe ([pkt_pos,pict_type]) that the comprehension
    cannot parse: fewer than two fields, or an I frame whose position is not
    an integer. *)
Definition ffprobe_line_unparseable (line : string) : bool :=
  match split_on "," line with
  | pos :: pict_type :: _ =>
      String.eqb pict_type "I" && negb (match py_int pos with Some _ => true | None => false end)
  | _ => true
  end.

(** [add_index_header_to_video_file(input_file, output_file)]: [payload] is
    the content of [input_file].  Returns the content of [output_file]
    ([None] when it was never opened) and the outcome. *)
Definition add_index_header_to_video_file (payload : list Z) (file_exists : bool)
    (ffprobe : proc_result) : option (list Z) * (exn + unit) :=
  match get_gop_offsets file_exists ffprobe with
  | inl e => (None, inl e)
  | inr (indices, nframe) =>
      let '(content, r) := run_file (add_header payload indices nframe) in
      (Some content, r)
  end.

(* ------------------------------------------------------------------ *)
(** ** Temporary files of the Transcoder *)

(** The files present on the host and the paths a task has written to. *)
Record fs_state := { files : list string; written : list string }.

Definition fs_create (p : string) (s : fs_state) : fs_state :=
  {| files := if existsb (String.eqb p) (files s) then files s else p :: files s;
     written := written s ++ [p] |}.

Definition fs_unlink (p : string) (s : fs_state) : fs_state :=
  {| files := filter (fun q => negb (String.eqb p q)) (files s); written := written s |}.

Definition fs_exists (p : string) (s : fs_state) : bool := existsb (String.eqb p) (files s).

(** [temp_file = '/tmp/converted.ts'] in [convert_to_indexed_ts_file]. *)
Definition converted_ts : string := "/tmp/converted.ts".

(** [convert_to_indexed_ts_file(input_file, output_file)]: [ffmpeg_rc] is the
    exit status of the remux into [temp_file] and [created] says whether
    that ffmpeg run created [temp_file] (with [-y] ffmpeg opens its output
    before muxing, so a failed run may also leave it); a non-zero status
    raises [CalledProcessError] under [check=True].  The ffprobe run and
    [add_header] then write [output_file]. *)
Definition convert_to_indexed_ts_file (output_file : string) (ffmpeg_rc : Z) (created : bool)
    (ts_payload : list Z) (ffprobe : proc_result) (s : fs_state)
  : fs_state * (exn + unit) :=
  let s1 := if created then fs_create converted_ts s else s in
  if negb (Z.eqb ffmpeg_rc 0) then (s1, inl (CalledProcessError ffmpeg_rc))
  else
    match add_index_header_to_video_file ts_payload (fs_exists converted_ts s1) ffprobe with
    | (None, r) => (s1, r)
    | (Some _, r) => (fs_create output_file s1, r)
    end.

(** [input_path]: [NamedTemporaryFile] in [/tmp] with
    [suffix = Path(filename).suffix or '.mp4']. *)
Definition tmp_input_path (tmp_name filename : string) : string :=
  let suffix := match py_suffix filename with EmptyString => ".mp4" | x => x end in
  "/tmp/" ++ tmp_name ++ suffix.

(** [output_path = os.path.join(os.path.dirname(input_path), f"{base_name}.ts")] *)
Definition tmp_output_path (filename : string) : string :=
  "/tmp/" ++ py_stem filename ++ ".ts".

(** [convert_video_mp4_to_ts(file_data, filename)]: [tmp_name] is the name
    [tempfile.NamedTemporaryFile(delete=False, suffix=suffix)] picks in
    [/tmp] (without the suffix).  The [finally] block unlinks [input_path]
    and [output_path] when they exist. *)
Definition convert_video_mp4_to_ts (tmp_name filename : string) (ffmpeg_rc : Z) (created : bool)
    (ts_payload : list Z) (ffprobe : proc_result) (s : fs_state)
  : fs_state * (exn + string) :=
  let input_path := tmp_input_path tmp_name filename in
  let s1 := fs_create input_path s in
  let base_name := py_stem filename in
  let output_path := tmp_output_path filename in
  let '(s2, r) := convert_to_indexed_ts_file output_path ffmpeg_rc created ts_payload ffprobe s1 in
  let s3 := if fs_exists input_path s2 then fs_unlink input_path s2 else s2 in
  let s4 := if fs_exists output_path s3 then fs_unlink output_path s3 else s3 in
  match r with
  | inl e => (s4, inl (RuntimeError "转换视频文件失败"))
  | inr _ => (s4, inr (base_name ++ ".ts"))
  end.

(* ------------------------------------------------------------------ *)
(** ** Upload Orchestrator: [upload_video] *)

(** A FastAPI [UploadFile]: its [filename] and the bytes [read()] returns. *)
Record upload_file := { filename : option string; data : list Z }.

(** The sort key [f.filename or ""]. *)
Definition sort_key (f : upload_file) : string := str_or (filename f) EmptyString.

(** Insertion that keeps [x] before every element with an equal key. *)
Fixpoint insert_by_name (x : upload_file) (l : list upload_file) : list upload_file :=
  match l with
  | [] => [x]
  | y :: ys => if String.leb (sort_key x) (sort_key y) then x :: y :: ys
               else y :: insert_by_name x ys
  end.

(** [sorted(files, key=lambda f: f.filename or "")]: Python's sort is stable,
    and so is this insertion sort.  Strings are the UTF-8 bytes of the file
    names, whose byte order is the code point order Python compares by. *)
Fixpoint sort_by_name (l : list upload_file) : list upload_file :=
  match l with
  | [] => []
  | x :: xs => insert_by_name x (sort_by_name xs)
  end.

(** [[(file, i + 1) for i, file in enumerate(sorted_files)]]: the camera
    index each task of a group is started with. *)
Fixpoint number_from (n : nat) (l : list upload_file) : list (upload_file * nat) :=
  match l with
  | [] => []
  | f :: rest => (f, n) :: number_from (S n) rest
  end.

Definition group_tasks (files : list upload_file) : list (upload_file * nat) :=
  number_from 1 (sort_by_name files).

(** What the orchestrator does outside its own process: start a converter
    (which spawns external processes) or put an object in the blob store. *)
Inductive event :=
| Spawn (converter : string) (source : string)
| Put (object_key : string).

(** The external collaborators: the two converters, called with the data and
    the original file name, the blob store's [upload_file_to_tos], and
    whether [db.refresh(video)], [db.refresh(video, ['owner'])] and
    [VideoRead.from_orm(video)] after the [ready] commit return normally. *)
Record env := {
  transcode : list Z -> string -> exn + list Z;   (* convert_video_mp4_to_ts *)
  extract : list Z -> string -> exn + list Z;     (* convert_background_mp4_to_png *)
  upload_ok : string -> bool;
  respond_ok : bool
}.

Definition upload (E : env) (key : string) : list event * (exn + unit) :=
  ([Put key], if upload_ok E key then inr tt else inl (RuntimeError "上传文件到 TOS 失败")).

(** The [ValueError] of an unsupported video extension. *)
Definition unsupported_video (ext : string) : exn :=
  ValueError ("不支持的视频格式: " ++ ext ++ "，仅支持 MP4 和 TS").

Definition unsupported_background (ext : string) : exn :=
  ValueError ("不支持的背景文件格式: " ++ ext ++ "，仅支持 PNG 和 MP4").

(** [process_video_file(video_file, index)], the body under [async with
    semaphore]. *)
Definition process_video_file (E : env) (key_prefix uuid_dir : string)
    (f : upload_file) (index : nat) : list event * (exn + unit) :=
  let original_filename := str_or (filename f) ("video_" ++ py_str_nat index ++ ".mp4") in
  let ext := py_lower (py_suffix original_filename) in
  let name := "cam_" ++ py_str_nat index ++ ".ts" in
  let key := key_prefix ++ "/" ++ uuid_dir ++ "/video/" ++ name in
  if String.eqb ext ".mp4" then
    match transcode E (data f) original_filename with
    | inl e => ([Spawn "convert_video_mp4_to_ts" original_filename], inl e)
    | inr _ =>
        let '(ev, r) := upload E key in
        (Spawn "convert_video_mp4_to_ts" original_filename :: ev, r)
    end
  else if String.eqb ext ".ts" then upload E key
  else ([], inl (unsupported_video ext)).

(** [process_background_file(background_file, index)]. *)
Definition process_background_file (E : env) (key_prefix uuid_dir : string)
    (f : upload_file) (index : nat) : list event * (exn + unit) :=
  let original_filename := str_or (filename f) ("background_" ++ py_str_nat index ++ ".png") in
  let ext := py_lower (py_suffix original_filename) in
  let name := "cam_" ++ py_str_nat index ++ ".png" in
  let key := key_prefix ++ "/" ++ uuid_dir ++ "/background/" ++ name in
  if String.eqb ext ".mp4" then
    match extract E (data f) original_filename with
    | inl e => ([Spawn "convert_background_mp4_to_png" original_filename], inl e)
    | inr _ =>
        let '(ev, r) := upload E key in
        (Spawn "convert_background_mp4_to_png" original_filename :: ev, r)
    end
  else if String.eqb ext ".png" then upload E key
  else ([], inl (unsupported_background ext)).

(** [await asyncio.gather(...)] over a group.  The tasks run concurrently,
    so only the order of the events inside each task is fixed: the result
    keeps one trace per task, in the order the tasks were passed.  A failure
    cancels no sibling (the siblings run to completion even after the
    gather has raised), and the gather raises exactly when one of the tasks
    raised; which exception it raises (the first raised in time) only goes
    into the message of the 500, which is not modelled, so the result
    records whether the gather returned normally. *)
Definition task_ok (t : list event * (exn + unit)) : bool :=
  match snd t with inr _ => true | inl _ => false end.

Definition gather (tasks : list (list event * (exn + unit))) : list (list event) * bool :=
  (map fst tasks, forallb task_ok tasks).

(** The video group: [gather] over [process_video_file] started with the
    files sorted by name and numbered from 1. *)
Definition video_group (E : env) (key_prefix uuid_dir : string)
    (videos : list upload_file) : list (list event) * bool :=
  gather (map (fun '(f, i) => process_video_file E key_prefix uuid_dir f i)
              (group_tasks videos)).

(** The background group, numbered in the same way on its own files. *)
Definition background_group (E : env) (key_prefix uuid_dir : string)
    (backgrounds : list upload_file) : list (list event) * bool :=
  gather (map (fun '(f, i) => process_background_file E key_prefix uuid_dir f i)
              (group_tasks backgrounds)).

(** [ext in ['.json', '.txt']] for [calibration.filename or "calibration.json"]. *)
Definition calibration_ext_ok (calibration : upload_file) : bool :=
  let ext := py_lower (py_suffix (str_or (filename calibration) "calibration.json")) in
  String.eqb ext ".json" || String.eqb ext ".txt".

(** The key the calibration document is stored under. *)
Definition calibration_key (key_prefix uuid_dir : string) : string :=
  key_prefix ++ "/" ++ uuid_dir ++ "/calibration/calibration_ba.json".

(** The observable result of [upload_video]: the statuses written to the
    [Video] row in order, the traces of the video tasks, of the background
    tasks and of the calibration step (the groups run one after the other,
    the tasks of a group concurrently), and the outcome. *)
Record upload_run := {
  statuses : list string;
  video_traces : list (list event);
  background_traces : list (list event);
  calibration_trace : list event;
  outcome : exn + unit
}.

Definition final_status (u : upload_run) : string := last (statuses u) "uploading".

(** [upload_video(...)] from the creation of the [uploading] row on (the
    database commits are taken to succeed).  A failure of a group sets
    [failed] and raises a 500; the 400 of a bad calibration extension is
    raised inside the [try] whose [except Exception] turns it into [failed]
    and a 500.  After the [ready] commit, an exception of the two
    [db.refresh] calls or of [VideoRead.from_orm] reaches the outer
    [except Exception], which writes [failed] and raises a 500. *)
Definition upload_video (E : env) (key_prefix uuid_dir : string)
    (videos backgrounds : list upload_file) (calibration : upload_file) : upload_run :=
  let '(tr_v, ok_v) := video_group E key_prefix uuid_dir videos in
  if negb ok_v then
    {| statuses := ["uploading"; "failed"]; video_traces := tr_v; background_traces := [];
       calibration_trace := []; outcome := inl (HTTPException 500) |}
  else
    let '(tr_b, ok_b) := background_group E key_prefix uuid_dir backgrounds in
    if negb ok_b then
      {| statuses := ["uploading"; "failed"]; video_traces := tr_v; background_traces := tr_b;
         calibration_trace := []; outcome := inl (HTTPException 500) |}
    else if negb (calibration_ext_ok calibration) then
      {| statuses := ["uploading"; "failed"]; video_traces := tr_v; background_traces := tr_b;
         calibration_trace := []; outcome := inl (HTTPException 500) |}
    else
      let '(ev_c, r_c) := upload E (calibration_key key_prefix uuid_dir) in
      match r_c with
      | inl _ =>
          {| statuses := ["uploading"; "failed"]; video_traces := tr_v; background_traces := tr_b;
             calibration_trace := ev_c; outcome := inl (HTTPException 500) |}
      | inr _ =>
          if respond_ok E then
            {| statuses := ["uploading"; "ready"]; video_traces := tr_v; background_traces := tr_b;
               calibration_trace := ev_c; outcome := inr tt |}
          else
            {| statuses := ["uploading"; "ready"; "failed"]; video_traces := tr_v;
               background_traces := tr_b; calibration_trace := ev_c;
               outcome := inl (HTTPException 500) |}
      end.

(* ------------------------------------------------------------------ *)
(** ** Other writers of [Video.status] *)

(** The fields of a [Video] row the status endpoints read and write. *)
Record video := { owner_id : Z; status : string }.

(** [mark_video_ready(video_id)]: [found] is the row the query returns. *)
Definition mark_video_ready (found : option video) (current_user_id : Z) : exn + video :=
  match found with
  | None => inl (HTTPException 404)
  | Some v =>
      if negb (Z.eqb (owner_id v) current_user_id) then inl (HTTPException 403)
      else inr {| owner_id := owner_id v; status := "ready" |}
  end.

(** [mark_video_failed(video_id)] *)
Definition mark_video_failed (found : option video) (current_user_id : Z) : exn + video :=
  match found with
  | None => inl (HTTPException 404)
  | Some v =>
      if negb (Z.eqb (owner_id v) current_user_id) then inl (HTTPException 403)
      else inr {| owner_id := owner_id v; status := "failed" |}
  end.

(** [create_video(video_in)]: [Video(owner_id=current_user.id,
    **video_in.dict())], where [VideoCreate.status] is any [str]. *)
Definition create_video (video_in_status : string) (current_user_id : Z) : video :=
  {| owner_id := current_user_id; status := video_in_status |}.

(* ------------------------------------------------------------------ *)
(** ** Blob store: [delete_tos_objects_by_prefix] *)

Fixpoint str_has (c : ascii) (s : string) : bool :=
  match s with
  | EmptyString => false
  | String d rest => Ascii.eqb c d || str_has c rest
  end.

Definition hex_digit (n : nat) : ascii :=
  ascii_of_nat (if Nat.ltb n 10 then 48 + n else 87 + n).

(** The code points at or above [0x80] that [str.isprintable] rejects
    (categories Cc, Cf, Cs, Co, Cn, Zl, Zp and Zs), as closed ranges, from
    the Unicode database of Python 3.11 ([unicodedata.unidata_version]
    14.0.0). *)
Definition nonprintable_ranges : list (Z * Z) := [
  (128, 160); (173, 173); (888, 889); (896, 899); (907, 907); (909, 909); (930, 930);
  (1328, 1328); (1367, 1368); (1419, 1420); (1424, 1424); (1480, 1487); (1515, 1518);
  (1525, 1541); (1564, 1564); (1757, 1757); (1806, 1807); (1867, 1868); (1970, 1983);
  (2043, 2044); (2094, 2095); (2111, 2111); (2140, 2141); (2143, 2143); (2155, 2159);
  (2191, 2199); (2274, 2274); (2436, 2436); (2445, 2446); (2449, 2450); (2473, 2473);
  (2481, 2481); (2483, 2485); (2490, 2491); (2501, 2502); (2505, 2506); (2511, 2518);
  (2520, 2523); (2526, 2526); (2532, 2533); (2559, 2560); (2564, 2564); (2571, 2574);
  (2577, 2578); (2601, 2601); (2609, 2609); (2612, 2612); (2615, 2615); (2618, 2619);
  (2621, 2621); (2627, 2630); (2633, 2634); (2638, 2640); (2642, 2648); (2653, 2653);
  (2655, 2661); (2679, 2688); (2692, 2692); (2702, 2702); (2706, 2706); (2729, 2729);
  (2737, 2737); (2740, 2740); (2746, 2747); (2758, 2758); (2762, 2762); (2766, 2767);
  (2769, 2783); (2788, 2789); (2802, 2808); (2816, 2816); (2820, 2820); (2829, 2830);
  (2833, 2834); (2857, 2857); (2865, 2865); (2868, 2868); (2874, 2875); (2885, 2886);
  (2889, 2890); (2894, 2900); (2904, 2907); (2910, 2910); (2916, 2917); (2936, 2945);
  (2948, 2948); (2955, 2957); (2961, 2961); (2966, 2968); (2971, 2971); (2973, 2973);
  (2976, 2978); (2981, 2983); (2987, 2989); (3002, 3005); (3011, 3013); (3017, 3017);
  (3022, 3023); (3025, 3030); (3032, 3045); (3067, 3071); (3085, 3085); (3089, 3089);
  (3113, 3113); (3130, 3131); (3141, 3141); (3145, 3145); (3150, 3156); (3159, 3159);
  (3163, 3164); (3166, 3167); (3172, 3173); (3184, 3190); (3213, 3213); (3217, 3217);
  (3241, 3241); (3252, 3252); (3258, 3259); (3269, 3269); (3273, 3273); (3278, 3284);
  (3287, 3292); (3295, 3295); (3300, 3301); (3312, 3312); (3315, 3327); (3341, 3341);
  (3345, 3345); (3397, 3397); (3401, 3401); (3408, 3411); (3428, 3429); (3456, 3456);
  (3460, 3460); (3479, 3481); (3506, 3506); (3516, 3516); (3518, 3519); (3527, 3529);
  (3531, 3534); (3541, 3541); (3543, 3543); (3552, 3557); (3568, 3569); (3573, 3584);
  (3643, 3646); (3676, 3712); (3715, 3715); (3717, 3717); (3723, 3723); (3748, 3748);
  (3750, 3750); (3774, 3775); (3781, 3781); (3783, 3783); (3790, 3791); (3802, 3803);
  (3808, 3839); (3912, 3912); (3949, 3952); (3992, 3992); (4029, 4029); (4045, 4045);
  (4059, 4095); (4294, 4294); (4296, 4300); (4302, 4303); (4681, 4681); (4686, 4687);
  (4695, 4695); (4697, 4697); (4702, 4703); (4745, 4745); (4750, 4751); (4785, 4785);
  (4790, 4791); (4799, 4799); (4801, 4801); (4806, 4807); (4823, 4823); (4881, 4881);
  (4886, 4887); (4955, 4956); (4989, 4991); (5018, 5023); (5110, 5111); (5118, 5119);
  (5760, 5760); (5789, 5791); (5881, 5887); (5910, 5918); (5943, 5951); (5972, 5983);
  (5997, 5997); (6001, 6001); (6004, 6015); (6110, 6111); (6122, 6127); (6138, 6143);
  (6158, 6158); (6170, 6175); (6265, 6271); (6315, 6319); (6390, 6399); (6431, 6431);
  (6444, 6447); (6460, 6463); (6465, 6467); (6510, 6511); (6517, 6527); (6572, 6575);
  (6602, 6607); (6619, 6621); (6684, 6685); (6751, 6751); (6781, 6782); (6794, 6799);
  (6810, 6815); (6830, 6831); (6863, 6911); (6989, 6991); (7039, 7039); (7156, 7163);
  (7224, 7226); (7242, 7244); (7305, 7311); (7355, 7356); (7368, 7375); (7419, 7423);
  (7958, 7959); (7966, 7967); (8006, 8007); (8014, 8015); (8024, 8024); (8026, 8026);
  (8028, 8028); (8030, 8030); (8062, 8063); (8117, 8117); (8133, 8133); (8148, 8149);
  (8156, 8156); (8176, 8177); (8181, 8181); (8191, 8207); (8232, 8239); (8287, 8303);
  (8306, 8307); (8335, 8335); (8349, 8351); (8385, 8399); (8433, 8447); (8588, 8591);
  (9255, 9279); (9291, 9311); (11124, 11125); (11158, 11158); (11508, 11512);
  (11558, 11558); (11560, 11564); (11566, 11567); (11624, 11630); (11633, 11646);
  (11671, 11679); (11687, 11687); (11695, 11695); (11703, 11703); (11711, 11711);
  (11719, 11719); (11727, 11727); (11735, 11735); (11743, 11743); (11870, 11903);
  (11930, 11930); (12020, 12031); (12246, 12271); (12284, 12288); (12352, 12352);
  (12439, 12440); (12544, 12548); (12592, 12592); (12687, 12687); (12772, 12783);
  (12831, 12831); (42125, 42127); (42183, 42191); (42540, 42559); (42744, 42751);
  (42955, 42959); (42962, 42962); (42964, 42964); (42970, 42993); (43053, 43055);
  (43066, 43071); (43128, 43135); (43206, 43213); (43226, 43231); (43348, 43358);
  (43389, 43391); (43470, 43470); (43482, 43485); (43519, 43519); (43575, 43583);
  (43598, 43599); (43610, 43611); (43715, 43738); (43767, 43776); (43783, 43784);
  (43791, 43792); (43799, 43807); (43815, 43815); (43823, 43823); (43884, 43887);
  (44014, 44015); (44026, 44031); (55204, 55215); (55239, 55242); (55292, 63743);
  (64110, 64111); (64218, 64255); (64263, 64274); (64280, 64284); (64311, 64311);
  (64317, 64317); (64319, 64319); (64322, 64322); (64325, 64325); (64451, 64466);
  (64912, 64913); (64968, 64974); (64976, 65007); (65050, 65055); (65107, 65107);
  (65127, 65127); (65132, 65135); (65141, 65141); (65277, 65280); (65471, 65473);
  (65480, 65481); (65488, 65489); (65496, 65497); (65501, 65503); (65511, 65511);
  (65519, 65531); (65534, 65535); (65548, 65548); (65575, 65575); (65595, 65595);
  (65598, 65598); (65614, 65615); (65630, 65663); (65787, 65791); (65795, 65798);
  (65844, 65846); (65935, 65935); (65949, 65951); (65953, 65999); (66046, 66175);
  (66205, 66207); (66257, 66271); (66300, 66303); (66340, 66348); (66379, 66383);
  (66427, 66431); (66462, 66462); (66500, 66503); (66518, 66559); (66718, 66719);
  (66730, 66735); (66772, 66775); (66812, 66815); (66856, 66863); (66916, 66926);
  (66939, 66939); (66955, 66955); (66963, 66963); (66966, 66966); (66978, 66978);
  (66994, 66994); (67002, 67002); (67005, 67071); (67383, 67391); (67414, 67423);
  (67432, 67455); (67462, 67462); (67505, 67505); (67515, 67583); (67590, 67591);
  (67593, 67593); (67638, 67638); (67641, 67643); (67645, 67646); (67670, 67670);
  (67743, 67750); (67760, 67807); (67827, 67827); (67830, 67834); (67868, 67870);
  (67898, 67902); (67904, 67967); (68024, 68027); (68048, 68049); (68100, 68100);
  (68103, 68107); (68116, 68116); (68120, 68120); (68150, 68151); (68155, 68158);
  (68169, 68175); (68185, 68191); (68256, 68287); (68327, 68330); (68343, 68351);
  (68406, 68408); (68438, 68439); (68467, 68471); (68498, 68504); (68509, 68520);
  (68528, 68607); (68681, 68735); (68787, 68799); (68851, 68857); (68904, 68911);
  (68922, 69215); (69247, 69247); (69290, 69290); (69294, 69295); (69298, 69375);
  (69416, 69423); (69466, 69487); (69514, 69551); (69580, 69599); (69623, 69631);
  (69710, 69713); (69750, 69758); (69821, 69821); (69827, 69839); (69865, 69871);
  (69882, 69887); (69941, 69941); (69960, 69967); (70007, 70015); (70112, 70112);
  (70133, 70143); (70162, 70162); (70207, 70271); (70279, 70279); (70281, 70281);
  (70286, 70286); (70302, 70302); (70314, 70319); (70379, 70383); (70394, 70399);
  (70404, 70404); (70413, 70414); (70417, 70418); (70441, 70441); (70449, 70449);
  (70452, 70452); (70458, 70458); (70469, 70470); (70473, 70474); (70478, 70479);
  (70481, 70486); (70488, 70492); (70500, 70501); (70509, 70511); (70517, 70655);
  (70748, 70748); (70754, 70783); (70856, 70863); (70874, 71039); (71094, 71095);
  (71134, 71167); (71237, 71247); (71258, 71263); (71277, 71295); (71354, 71359);
  (71370, 71423); (71451, 71452); (71468, 71471); (71495, 71679); (71740, 71839);
  (71923, 71934); (71943, 71944); (71946, 71947); (71956, 71956); (71959, 71959);
  (71990, 71990); (71993, 71994); (72007, 72015); (72026, 72095); (72104, 72105);
  (72152, 72153); (72165, 72191); (72264, 72271); (72355, 72367); (72441, 72703);
  (72713, 72713); (72759, 72759); (72774, 72783); (72813, 72815); (72848, 72849);
  (72872, 72872); (72887, 72959); (72967, 72967); (72970, 72970); (73015, 73017);
  (73019, 73019); (73022, 73022); (73032, 73039); (73050, 73055); (73062, 73062);
  (73065, 73065); (73103, 73103); (73106, 73106); (73113, 73119); (73130, 73439);
  (73465, 73647); (73649, 73663); (73714, 73726); (74650, 74751); (74863, 74863);
  (74869, 74879); (75076, 77711); (77811, 77823); (78895, 82943); (83527, 92159);
  (92729, 92735); (92767, 92767); (92778, 92781); (92863, 92863); (92874, 92879);
  (92910, 92911); (92918, 92927); (92998, 93007); (93018, 93018); (93026, 93026);
  (93048, 93052); (93072, 93759); (93851, 93951); (94027, 94030); (94088, 94094);
  (94112, 94175); (94181, 94191); (94194, 94207); (100344, 100351); (101590, 101631);
  (101641, 110575); (110580, 110580); (110588, 110588); (110591, 110591);
  (110883, 110927); (110931, 110947); (110952, 110959); (111356, 113663);
  (113771, 113775); (113789, 113791); (113801, 113807); (113818, 113819);
  (113824, 118527); (118574, 118575); (118599, 118607); (118724, 118783);
  (119030, 119039); (119079, 119080); (119155, 119162); (119275, 119295);
  (119366, 119519); (119540, 119551); (119639, 119647); (119673, 119807);
  (119893, 119893); (119965, 119965); (119968, 119969); (119971, 119972);
  (119975, 119976); (119981, 119981); (119994, 119994); (119996, 119996);
  (120004, 120004); (120070, 120070); (120075, 120076); (120085, 120085);
  (120093, 120093); (120122, 120122); (120127, 120127); (120133, 120133);
  (120135, 120137); (120145, 120145); (120486, 120487); (120780, 120781);
  (121484, 121498); (121504, 121504); (121520, 122623); (122655, 122879);
  (122887, 122887); (122905, 122906); (122914, 122914); (122917, 122917);
  (122923, 123135); (123181, 123183); (123198, 123199); (123210, 123213);
  (123216, 123535); (123567, 123583); (123642, 123646); (123648, 124895);
  (124903, 124903); (124908, 124908); (124911, 124911); (124927, 124927);
  (125125, 125126); (125143, 125183); (125260, 125263); (125274, 125277);
  (125280, 126064); (126133, 126208); (126270, 126463); (126468, 126468);
  (126496, 126496); (126499, 126499); (126501, 126502); (126504, 126504);
  (126515, 126515); (126520, 126520); (126522, 126522); (126524, 126529);
  (126531, 126534); (126536, 126536); (126538, 126538); (126540, 126540);
  (126544, 126544); (126547, 126547); (126549, 126550); (126552, 126552);
  (126554, 126554); (126556, 126556); (126558, 126558); (126560, 126560);
  (126563, 126563); (126565, 126566); (126571, 126571); (126579, 126579);
  (126584, 126584); (126589, 126589); (126591, 126591); (126602, 126602);
  (126620, 126624); (126628, 126628); (126634, 126634); (126652, 126703);
  (126706, 126975); (127020, 127023); (127124, 127135); (127151, 127152);
  (127168, 127168); (127184, 127184); (127222, 127231); (127406, 127461);
  (127491, 127503); (127548, 127551); (127561, 127567); (127570, 127583);
  (127590, 127743); (128728, 128732); (128749, 128751); (128765, 128767);
  (128884, 128895); (128985, 128991); (129004, 129007); (129009, 129023);
  (129036, 129039); (129096, 129103); (129114, 129119); (129160, 129167);
  (129198, 129199); (129202, 129279); (129620, 129631); (129646, 129647);
  (129653, 129655); (129661, 129663); (129671, 129679); (129709, 129711);
  (129723, 129727); (129734, 129743); (129754, 129759); (129768, 129775);
  (129783, 129791); (129939, 129939); (129995, 130031); (130042, 131071);
  (173792, 173823); (177977, 177983); (178206, 178207); (183970, 183983);
  (191457, 194559); (195102, 196607); (201547, 917759); (918000, 1114111)].

(** [Py_UNICODE_ISPRINTABLE] for a non-ASCII code point. *)
Definition printable_cp (cp : Z) : bool :=
  negb (existsb (fun r => Z.leb (fst r) cp && Z.leb cp (snd r)) nonprintable_ranges).

(** The [n] lowest hexadecimal digits of [v], lower case. *)
Fixpoint hex_digits (n : nat) (v : Z) (acc : string) : string :=
  match n with
  | O => acc
  | S k => hex_digits k (v / 16) (String (hex_digit (Z.to_nat (v mod 16))) acc)
  end.

(** How [repr] writes a non-ASCII code point: unchanged when printable,
    else [\xhh], [\uhhhh] or [\Uhhhhhhhh]. *)
Definition repr_cp (cp : Z) (bytes : string) : string :=
  if printable_cp cp then bytes
  else if Z.leb cp 255 then backslash ++ "x" ++ hex_digits 2 cp EmptyString
  else if Z.leb cp 65535 then backslash ++ "u" ++ hex_digits 4 cp EmptyString
  else backslash ++ "U" ++ hex_digits 8 cp EmptyString.

(** One ASCII character of [repr(s)] inside quotes [q]: backslash escapes
    for the quote, the backslash, [\n], [\r], [\t] and the other control
    characters ([\xhh]); every other ASCII character is kept. *)
Definition repr_char (q : ascii) (c : ascii) : string :=
  let n := nat_of_ascii c in
  if Ascii.eqb c q then backslash ++ String c EmptyString
  else if Nat.eqb n 92 then backslash ++ backslash
  else if Nat.eqb n 10 then backslash ++ "n"
  else if Nat.eqb n 13 then backslash ++ "r"
  else if Nat.eqb n 9 then backslash ++ "t"
  else if Nat.ltb n 32 || Nat.eqb n 127 then
    backslash ++ "x" ++ String (hex_digit (n / 16)) (String (hex_digit (n mod 16)) EmptyString)
  else String c EmptyString.

(** UTF-8: the byte value, continuation bytes [10xxxxxx] and their payload. *)
Definition byte_val (c : ascii) : Z := Z.of_nat (nat_of_ascii c).
Definition is_cont (c : ascii) : bool := Z.leb 128 (byte_val c) && Z.ltb (byte_val c) 192.
Definition cont_val (c : ascii) : Z := byte_val c - 128.

(** The body of [repr(s)] for the UTF-8 encoding [s] of a [str]: each code
    point is decoded (two, three or four bytes, well-formed: no overlong
    form, no surrogate, at most [U+10FFFF]) and written by [repr_cp].  A
    byte that starts no well-formed sequence, which the encoding of a [str]
    never holds, is kept. *)
Fixpoint repr_body (q : ascii) (s : string) : string :=
  match s with
  | EmptyString => EmptyString
  | String c rest =>
      let b := byte_val c in
      if Z.ltb b 128 then repr_char q c ++ repr_body q rest
      else
        let keep := String c EmptyString ++ repr_body q rest in
        match rest with
        | String c1 rest1 =>
            if (Z.leb 192 b) && (Z.ltb b 224) && is_cont c1 then
              let cp := (b - 192) * 64 + cont_val c1 in
              if Z.leb 128 cp then repr_cp cp (String c (String c1 EmptyString)) ++ repr_body q rest1
              else keep
            else match rest1 with
            | String c2 rest2 =>
                if (Z.leb 224 b) && (Z.ltb b 240) && is_cont c1 && is_cont c2 then
                  let cp := ((b - 224) * 64 + cont_val c1) * 64 + cont_val c2 in
                  if (Z.leb 2048 cp) && negb ((Z.leb 55296 cp) && (Z.leb cp 57343)) then
                    repr_cp cp (String c (String c1 (String c2 EmptyString))) ++ repr_body q rest2
                  else keep
                else match rest2 with
                | String c3 rest3 =>
                    if (Z.leb 240 b) && (Z.ltb b 248) && is_cont c1 && is_cont c2 && is_cont c3 then
                      let cp := (((b - 240) * 64 + cont_val c1) * 64 + cont_val c2) * 64
                                + cont_val c3 in
                      if (Z.leb 65536 cp) && (Z.leb cp 1114111) then
                        repr_cp cp (String c (String c1 (String c2 (String c3 EmptyString))))
                          ++ repr_body q rest3
                      else keep
                    else keep
                | EmptyString => keep
                end
            | EmptyString => keep
            end
        | EmptyString => keep
        end
  end.

(** [repr(s)]: single quotes, unless [s] holds a single quote and no double
    quote. *)
Definition py_repr_str (s : string) : string :=
  let sq := ascii_of_nat 39 in
  let dq := ascii_of_nat 34 in
  if str_has sq s && negb (str_has dq s)
  then dquote ++ repr_body dq s ++ dquote
  else squote ++ repr_body sq s ++ squote.

Fixpoint join (sep : string) (l : list string) : string :=
  match l with
  | [] => EmptyString
  | [x] => x
  | x :: rest => x ++ sep ++ join sep rest
  end.

(** [str(l)] of a list of strings. *)
Definition py_list_repr (l : list string) : string :=
  "[" ++ join ", " (map py_repr_str l) ++ "]".

(** The message of the aggregate [RuntimeError]. *)
Definition delete_failure_message (failed_keys object_keys : list string) : string :=
  "删除 TOS 对象失败: 共 " ++ py_str_nat (List.length failed_keys) ++ " 个对象删除失败 "
  ++ "(总共 " ++ py_str_nat (List.length object_keys) ++ " 个对象)。失败的对象: "
  ++ py_list_repr (firstn 10 failed_keys)
  ++ (if Nat.ltb 10 (List.length failed_keys)
      then " 等共 " ++ py_str_nat (List.length failed_keys) ++ " 个" else EmptyString).

(** The loop [for object_key in object_keys: try: delete_tos_object(...)
    except: failed_keys.append(object_key)]: the keys tried, in order, and
    [failed_keys]. *)
Fixpoint delete_loop (delete_ok : string -> bool) (keys : list string)
    (tried failed_keys : list string) : list string * list string :=
  match keys with
  | [] => (tried, failed_keys)
  | k :: rest =>
      delete_loop delete_ok rest (tried ++ [k])%list
        (if delete_ok k then failed_keys else (failed_keys ++ [k])%list)
  end.

(** [delete_tos_objects_by_prefix(prefix)]: [listing] is the result of
    [list_tos_objects(prefix)] ([inl] carries [str(e)] of its exception);
    [delete_ok k] says whether [delete_tos_object(k)] returns normally.
    Returns the keys whose deletion was attempted and the outcome. *)
Definition delete_tos_objects_by_prefix (listing : string + list string)
    (delete_ok : string -> bool) : list string * (exn + unit) :=
  match listing with
  | inl msg => ([], inl (RuntimeError ("列出 TOS 对象失败: " ++ msg)))
  | inr object_keys =>
      let '(tried, failed_keys) := delete_loop delete_ok object_keys [] [] in
      (tried, match failed_keys with
              | [] => inr tt
              | _ => inl (RuntimeError (delete_failure_message failed_keys object_keys))
              end)
  end.

(** [s1] occurs in [s2]. *)
Fixpoint contains (s1 s2 : string) : bool :=
  String.prefix s1 s2 ||
  match s2 with
  | EmptyString => false
  | String _ rest => contains s1 rest
  end.

(* ------------------------------------------------------------------ *)
(** ** The semaphore of [upload_video] *)

(** [cpu_count = os.cpu_count() or 1] *)
Definition cpu_count_or_1 (c : option Z) : Z :=
  match c with
  | Some n => if Z.eqb n 0 then 1 else n
  | None => 1
  end.

(** [max_workers = max(1, int(cpu_count * 0.8))]; for a CPU count the double
    product truncates to [floor(4 n / 5)]. *)
Definition max_workers (c : option Z) : Z := Z.max 1 (cpu_count_or_1 c * 4 / 5).

(** A task of [process_video_file] or [process_background_file]: waiting on
    [async with semaphore], inside it with [n] transform steps (read,
    convert, upload) left, or past it (normal exit or exception). *)
Inductive phase := Waiting | Holding (ops_left : nat) | Finished.

Record sched := { sem_value : Z; tasks : list phase }.

Fixpoint set_nth (l : list phase) (i : nat) (x : phase) : list phase :=
  match l, i with
  | [], _ => []
  | _ :: rest, O => x :: rest
  | y :: rest, S j => y :: set_nth rest j x
  end.

Definition is_holding (p : phase) : bool :=
  match p with Holding _ => true | _ => false end.

(** The transform operations in flight: the tasks inside the semaphore. *)
Definition in_flight (s : sched) : nat := List.length (filter is_holding (tasks s)).

(** One scheduling step of the event loop, in any interleaving: [gather]
    creates a task (of either group), a task acquires a permit when the
    counter is positive, performs one step of its body, or leaves the
    [async with] block, which releases the permit on every exit path. *)
Inductive sched_step : sched -> sched -> Prop :=
| step_spawn s :
    sched_step s {| sem_value := sem_value s; tasks := (tasks s ++ [Waiting])%list |}
| step_acquire s i n :
    nth_error (tasks s) i = Some Waiting -> 0 < sem_value s ->
    sched_step s {| sem_value := sem_value s - 1; tasks := set_nth (tasks s) i (Holding n) |}
| step_work s i n :
    nth_error (tasks s) i = Some (Holding (S n)) ->
    sched_step s {| sem_value := sem_value s; tasks := set_nth (tasks s) i (Holding n) |}
| step_release s i n :
    nth_error (tasks s) i = Some (Holding n) ->
    sched_step s {| sem_value := sem_value s + 1; tasks := set_nth (tasks s) i Finished |}.

(** [semaphore = asyncio.Semaphore(max_workers)] before any task exists. *)
Definition sched_init (c : option Z) : sched := {| sem_value := max_workers c; tasks := [] |}.

Inductive reachable (c : option Z) : sched -> Prop :=
| reach_init : reachable c (sched_init c)
| reach_step s s' : reachable c s -> sched_step s s' -> reachable c s'.

(* ------------------------------------------------------------------ *)
(** ** Frame extraction of background files *)

(** The [ffmpeg] run of [extract_frame_from_video_data]: its exit status and
    what it wrote into [output_path] ([None]: nothing), or the 60 s timeout. *)
Inductive ffmpeg_run :=
| FfExit (returncode : Z) (written_png : option (list Z))
| FfTimeout.

(** [extract_frame_from_video_data(file_data, filename, frame_time)]:
    [tmp_name] is the name [NamedTemporaryFile(delete=False, suffix=suffix)]
    picks in [/tmp]; [output_path = input_path + ".png"].  A non-zero exit
    raises [CalledProcessError] under [check=True]; a missing output makes
    [open] raise; every exception leaves as a [RuntimeError] (its message
    kept up to the colon).  The [finally] block unlinks both paths when
    they exist. *)
Definition extract_frame_from_video_data (tmp_name filename : string) (ff : ffmpeg_run)
    (s : fs_state) : fs_state * (exn + list Z) :=
  let input_path := tmp_input_path tmp_name filename in
  let s1 := fs_create input_path s in
  let output_path := input_path ++ ".png" in
  let '(s2, r) :=
    match ff with
    | FfTimeout => (s1, inl (RuntimeError "ffmpeg 执行超时（60秒）"))
    | FfExit rc out =>
        let s2 := match out with Some _ => fs_create output_path s1 | None => s1 end in
        if negb (Z.eqb rc 0) then (s2, inl (RuntimeError "ffmpeg 执行失败"))
        else match out with
             | Some png => (s2, inr png)
             | None => (s2, inl (RuntimeError "提取视频帧失败"))
             end
    end in
  let s3 := if fs_exists input_path s2 then fs_unlink input_path s2 else s2 in
  let s4 := if fs_exists output_path s3 then fs_unlink output_path s3 else s3 in
  (s4, r).

(** [convert_background_mp4_to_png(file_data, filename)]: the PNG and
    [f"{Path(filename).stem}.png"]. *)
Definition convert_background_mp4_to_png (tmp_name filename : string) (ff : ffmpeg_run)
    (s : fs_state) : fs_state * (exn + (list Z * string)) :=
  let '(s', r) := extract_frame_from_video_data tmp_name filename ff s in
  (s', match r with
       | inl e => inl e
       | inr png => inr (png, py_stem filename ++ ".png")
       end).

(* ------------------------------------------------------------------ *)
(** ** Objects stored by a batch *)

(** The object keys among the events. *)
Fixpoint put_keys (evs : list event) : list string :=
  match evs with
  | [] => []
  | Put k :: rest => k :: put_keys rest
  | Spawn _ _ :: rest => put_keys rest
  end.

(** [f"{key_prefix}/{uuid_dir}/video/cam_{index}.ts"] and the background
    key of [process_background_file]. *)
Definition video_key (key_prefix uuid_dir : string) (index : nat) : string :=
  key_prefix ++ "/" ++ uuid_dir ++ "/video/" ++ ("cam_" ++ py_str_nat index ++ ".ts").

Definition background_key (key_prefix uuid_dir : string) (index : nat) : string :=
  key_prefix ++ "/" ++ uuid_dir ++ "/background/" ++ ("cam_" ++ py_str_nat index ++ ".png").

(** [tos_path = f"tos://{settings.tos_bucket}/{uuid_path}/"] with
    [uuid_path = f"{key_prefix}/{uuid_dir}"], as [upload_video] stores it. *)
Definition upload_tos_path (bucket key_prefix uuid_dir : string) : string :=
  "tos://" ++ bucket ++ "/" ++ key_prefix ++ "/" ++ uuid_dir ++ "/".

(** [s.lstrip(c)] and [s.rstrip(c)] for one character. *)
Fixpoint lstrip_char (c : ascii) (s : string) : string :=
  match s with
  | EmptyString => EmptyString
  | String d rest => if Ascii.eqb d c then lstrip_char c rest else s
  end.

Definition rstrip_char (c : ascii) (s : string) : string :=
  rev_string (lstrip_char c (rev_string s)).

(** [s.split(c, 1)] when [c in s]; [None] when [c] does not occur. *)
Fixpoint split_once (c : ascii) (s : string) : option (string * string) :=
  match s with
  | EmptyString => None
  | String d rest =>
      if Ascii.eqb d c then Some (EmptyString, rest)
      else option_map (fun '(a, b) => (String d a, b)) (split_once c rest)
  end.

(** The [uuid_path] that [delete_video] and [download_video_zip] derive
    from a [tos_path]: drop ["tos://"] and the bucket, then trailing
    slashes; a [tos://] path with no further ['/'] is the 400. *)
Definition tos_uuid_path (tos_path : string) : exn + string :=
  if String.prefix "tos://" tos_path then
    let path_without_schema := substring 6 (String.length tos_path - 6) tos_path in
    match split_once "/" path_without_schema with
    | Some (_, path_after_bucket) => inr (rstrip_char "/" path_after_bucket)
    | None => inl (HTTPException 400)
    end
  else inr (rstrip_char "/" tos_path).

(** [prefix = uuid_path.rstrip("/") + "/"] of [delete_video]. *)
Definition delete_prefix (tos_path : string) : exn + string :=
  match tos_uuid_path tos_path with
  | inl e => inl e
  | inr uuid_path => inr (rstrip_char "/" uuid_path ++ "/")
  end.

(* ------------------------------------------------------------------ *)
(** ** Rows, users and visibility *)

(** The columns of a [Video] row the endpoints below read or write (the
    metadata columns, which none of them touches, are left out). *)
Module VideoRow.
Record t := {
  id : Z; owner_id : Z; studio : string; producer : string; production : string;
  action : string; tos_path : string; status : string; is_public : bool;
  visible_to_user_ids : option string
}.
End VideoRow.

(** The attributes of the current [User] the endpoints read. *)
Module User.
Record t := { id : Z; is_superuser : bool }.
End User.

(** A value [json.loads] returns; [JFloat n d] is a float of exact value
    [n / d]. *)
#[warnings="-register-all"]
Inductive json :=
| JNull
| JBool (b : bool)
| JInt (z : Z)
| JFloat (num : Z) (den : positive)
| JStr (s : string)
| JArr (items : list json)
| JObj (fields : list (string * json)).

(** Python's [uid == v] for an [int] [uid] and a JSON value: [True == 1],
    an integral float equals the integer, nothing else does. *)
Definition py_eq_int (uid : Z) (v : json) : bool :=
  match v with
  | JInt z => Z.eqb z uid
  | JBool b => Z.eqb (if b then 1 else 0) uid
  | JFloat n d => Z.eqb n (uid * Z.pos d)
  | _ => false
  end.

(** [uid in v]: membership in a list, key membership in a dict (whose keys
    are strings, never equal to an int); [TypeError] for a string, a number,
    a bool or [None]. *)
Definition py_in_json (uid : Z) (v : json) : exn + bool :=
  match v with
  | JArr items => inr (existsb (py_eq_int uid) items)
  | JObj _ => inr false
  | _ => inl TypeError
  end.

(** [str(z)] for an integer. *)
Definition py_str_int (z : Z) : string :=
  if Z.ltb z 0 then "-" ++ py_str_nat (Z.to_nat (- z)) else py_str_nat (Z.to_nat z).

(** [json.dumps(ids)] for a list of integers. *)
Definition dumps_ints (l : list Z) : string :=
  "[" ++ join ", " (map py_str_int l) ++ "]".

Section Visibility.

(** [json.loads]: [None] is the [JSONDecodeError]. *)
Variable json_loads : string -> option json.

(** [parse_visible_user_ids(visible_to_user_ids)] *)
Definition parse_visible_user_ids (s : string) : json :=
  if String.eqb s EmptyString then JArr []
  else match json_loads s with
       | Some v => v
       | None => JArr []
       end.

(** [can_user_view_video(video, user)]; the [in] test may raise. *)
Definition can_user_view_video (v : VideoRow.t) (u : User.t) : exn + bool :=
  if User.is_superuser u then inr true
  else if Z.eqb (VideoRow.owner_id v) (User.id u) then inr true
  else if VideoRow.is_public v then inr true
  else match VideoRow.visible_to_user_ids v with
       | Some s =>
           if String.eqb s EmptyString then inr false
           else py_in_json (User.id u) (parse_visible_user_ids s)
       | None => inr false
       end.

(** [[v for v in rows if p(v)]] with a check that may raise. *)
Fixpoint filter_exn {A} (p : A -> exn + bool) (l : list A) : exn + list A :=
  match l with
  | [] => inr []
  | x :: rest =>
      match p x with
      | inl e => inl e
      | inr b =>
          match filter_exn p rest with
          | inl e => inl e
          | inr ys => inr (if b then x :: ys else ys)
          end
      end
  end.

(** [list_videos]: [rows] is the table in query order.  A non-superuser's
    query keeps the rows with [owner_id == user.id OR is_public OR
    visible_to_user_ids IS NOT NULL], which are then filtered in Python. *)
Definition list_videos (rows : list VideoRow.t) (u : User.t) : exn + list VideoRow.t :=
  if User.is_superuser u then inr rows
  else
    let potential_videos :=
      filter (fun v => Z.eqb (VideoRow.owner_id v) (User.id u) || VideoRow.is_public v
                       || match VideoRow.visible_to_user_ids v with Some _ => true | None => false end)
             rows in
    filter_exn (fun v => can_user_view_video v u) potential_videos.

(** [get_video(video_id)]: [found] is the row with that id. *)
Definition get_video (found : option VideoRow.t) (u : User.t) : exn + VideoRow.t :=
  match found with
  | None => inl (HTTPException 404)
  | Some v =>
      match can_user_view_video v u with
      | inl e => inl e
      | inr false => inl (HTTPException 403)
      | inr true => inr v
      end
  end.

End Visibility.

(** A row with [is_public] or [visible_to_user_ids] assigned. *)
Definition set_is_public (v : VideoRow.t) (b : bool) : VideoRow.t :=
  {| VideoRow.id := VideoRow.id v; VideoRow.owner_id := VideoRow.owner_id v;
     VideoRow.studio := VideoRow.studio v; VideoRow.producer := VideoRow.producer v;
     VideoRow.production := VideoRow.production v; VideoRow.action := VideoRow.action v;
     VideoRow.tos_path := VideoRow.tos_path v; VideoRow.status := VideoRow.status v;
     VideoRow.is_public := b; VideoRow.visible_to_user_ids := VideoRow.visible_to_user_ids v |}.

Definition set_visible_to_user_ids (v : VideoRow.t) (x : option string) : VideoRow.t :=
  {| VideoRow.id := VideoRow.id v; VideoRow.owner_id := VideoRow.owner_id v;
     VideoRow.studio := VideoRow.studio v; VideoRow.producer := VideoRow.producer v;
     VideoRow.production := VideoRow.production v; VideoRow.action := VideoRow.action v;
     VideoRow.tos_path := VideoRow.tos_path v; VideoRow.status := VideoRow.status v;
     VideoRow.is_public := VideoRow.is_public v; VideoRow.visible_to_user_ids := x |}.

(** The request body of [update_video_visibility].  Its schema class is
    not among the sources; its two optional fields are read off their uses
    in the endpoint ([is_public] assigned to the boolean column, the id list
    passed to [json.dumps]). *)
Module VisibilityUpdate.
Record t := { is_public : option bool; visible_to_user_ids : option (list Z) }.
End VisibilityUpdate.

(** [update_video_visibility(video_id, visibility_update)]. *)
Definition update_video_visibility (found : option VideoRow.t) (upd : VisibilityUpdate.t)
    (u : User.t) : exn + VideoRow.t :=
  match found with
  | None => inl (HTTPException 404)
  | Some v =>
      let is_owner := Z.eqb (VideoRow.owner_id v) (User.id u) in
      if negb is_owner && negb (User.is_superuser u) then inl (HTTPException 403)
      else if is_owner && negb (User.is_superuser u) then
        match VisibilityUpdate.visible_to_user_ids upd with
        | Some _ => inl (HTTPException 403)
        | None =>
            inr (match VisibilityUpdate.is_public upd with
                 | Some b => set_is_public v b
                 | None => v
                 end)
        end
      else
        let v1 := match VisibilityUpdate.is_public upd with
                  | Some b => set_is_public v b
                  | None => v
                  end in
        inr (match VisibilityUpdate.visible_to_user_ids upd with
             | Some ids =>
                 match ids with
                 | [] => set_visible_to_user_ids v1 None
                 | _ => set_visible_to_user_ids v1 (Some (dumps_ints ids))
                 end
             | None => v1
             end)
  end.

(** The request body of [update_video] ([VideoUpdate]). *)
Module VideoUpdate.
Record t := { studio : option string; producer : option string;
              production : option string; action : option string }.
End VideoUpdate.

(** [update_video(video_id, video_update)]: only the owner may update;
    each provided field is assigned. *)
Definition update_video (found : option VideoRow.t) (upd : VideoUpdate.t) (u : User.t)
  : exn + VideoRow.t :=
  match found with
  | None => inl (HTTPException 404)
  | Some v =>
      if negb (Z.eqb (VideoRow.owner_id v) (User.id u)) then inl (HTTPException 403)
      else
        let pick o d := match o with Some x => x | None => d end in
        inr {| VideoRow.id := VideoRow.id v; VideoRow.owner_id := VideoRow.owner_id v;
               VideoRow.studio := pick (VideoUpdate.studio upd) (VideoRow.studio v);
               VideoRow.producer := pick (VideoUpdate.producer upd) (VideoRow.producer v);
               VideoRow.production := pick (VideoUpdate.production upd) (VideoRow.production v);
               VideoRow.action := pick (VideoUpdate.action upd) (VideoRow.action v);
               VideoRow.tos_path := VideoRow.tos_path v; VideoRow.status := VideoRow.status v;
               VideoRow.is_public := VideoRow.is_public v;
               VideoRow.visible_to_user_ids := VideoRow.visible_to_user_ids v |}
  end.

(* ------------------------------------------------------------------ *)
(** ** Deleting a video *)

(** What [delete_video] did: the keys whose deletion it attempted, whether
    the row was deleted, and the response. *)
Record delete_run := { attempted : list string; row_deleted : bool; response : exn + unit }.

(** [delete_video(video_id)]: [found] is the row, [job_count] the number of
    jobs on it, [listing prefix] the result of listing the store under
    [prefix], [delete_ok] whether deleting a key succeeds, [db_ok] whether
    [db.delete(video); db.commit()] succeeds. *)
Definition delete_video (u : User.t) (found : option VideoRow.t) (job_count : nat)
    (listing : string -> string + list string) (delete_ok : string -> bool) (db_ok : bool)
  : delete_run :=
  if negb (User.is_superuser u) then {| attempted := []; row_deleted := false;
                                        response := inl (HTTPException 403) |}
  else match found with
  | None => {| attempted := []; row_deleted := false; response := inl (HTTPException 404) |}
  | Some v =>
      if Nat.ltb 0 job_count then
        {| attempted := []; row_deleted := false; response := inl (HTTPException 400) |}
      else match delete_prefix (VideoRow.tos_path v) with
      | inl e => {| attempted := []; row_deleted := false; response := inl e |}
      | inr prefix =>
          let '(tried, r) := delete_tos_objects_by_prefix (listing prefix) delete_ok in
          match r with
          | inl (RuntimeError _) =>
              {| attempted := tried; row_deleted := false; response := inl (HTTPException 500) |}
          | inl e => {| attempted := tried; row_deleted := false; response := inl e |}
          | inr _ =>
              if db_ok then {| attempted := tried; row_deleted := true; response := inr tt |}
              else {| attempted := tried; row_deleted := false;
                      response := inl (HTTPException 500) |}
          end
      end
  end.

(* ------------------------------------------------------------------ *)
(** ** Listing the blob store *)

(** A response of [client.list_objects_type2]: the [key] of each entry of
    [contents] ([None] for an entry without one), [is_truncated] and
    [next_continuation_token]. *)
Record list_page := {
  contents : list (option string); is_truncated : bool; next_continuation_token : option string
}.

Definition page_keys (p : list_page) : list string :=
  flat_map (fun k => match k with Some key => [key] | None => [] end) (contents p).

(** The [while is_truncated] loop of [list_tos_objects(prefix)]: [service
    tok] is the page returned for continuation token [tok] ([None]: the
    call without one), or the exception the call raises, which is
    re-raised.  [fuel] bounds the number of calls; [None] means the loop
    has not ended within it. *)
Fixpoint list_loop (fuel : nat) (service : option string -> exn + list_page)
    (token : option string) (object_keys : list string) : option (exn + list string) :=
  match fuel with
  | O => None
  | S f =>
      match service token with
      | inl e => Some (inl e)
      | inr result =>
          let object_keys := (object_keys ++ page_keys result)%list in
          if is_truncated result then
            match next_continuation_token result with
            | Some t => if String.eqb t EmptyString then Some (inr object_keys)
                        else list_loop f service (Some t) object_keys
            | None => Some (inr object_keys)
            end
          else Some (inr object_keys)
      end
  end.

(** [list_tos_objects(prefix)], for the [service] of that prefix and a
    client [get_tos_client()] has returned; an empty [bucket] is the
    [RuntimeError] of a missing configuration. *)
Definition list_tos_objects (fuel : nat) (bucket : string)
    (service : option string -> exn + list_page) : option (exn + list string) :=
  if String.eqb bucket EmptyString then Some (inl (RuntimeError "TOS_BUCKET 未配置"))
  else list_loop fuel service None [].

(* ------------------------------------------------------------------ *)
(** ** Collecting the files of a ZIP download *)

(** A [FileDownloadInfo]. *)
Module FileDownloadInfo.
Record t := { object_key : string; download_url : string; filename : string; file_type : string }.
End FileDownloadInfo.

(** [object_key.split("/")[-1]] *)
Definition key_filename (object_key : string) : string :=
  last (split_on "/" object_key) EmptyString.

(** The inner loop over the keys of one type: [sign k] is
    [generate_tos_download_url(k)] ([None]: it raises, which ends the
    [try] around the loop). *)
Fixpoint collect_keys (file_type : string) (sign : string -> option string)
    (keys : list string) : list FileDownloadInfo.t :=
  match keys with
  | [] => []
  | k :: rest =>
      match sign k with
      | None => []
      | Some url =>
          {| FileDownloadInfo.object_key := k; FileDownloadInfo.download_url := url;
             FileDownloadInfo.filename := key_filename k;
             FileDownloadInfo.file_type := file_type |} :: collect_keys file_type sign rest
      end
  end.

Definition valid_file_type (t : string) : bool :=
  String.eqb t "video" || String.eqb t "background" || String.eqb t "calibration".

(** The files [download_video_zip(video_id, download_request)] packs, with
    the prefixes it lists: [listing p] is [list_tos_objects(p)] ([inl]: it
    raises, and the type is skipped).  The ZIP stream built from them is not
    modelled. *)
Definition download_video_zip (json_loads : string -> option json)
    (found : option VideoRow.t) (u : User.t) (file_types : list string)
    (listing : string -> exn + list string) (sign : string -> option string)
  : list string * (exn + list FileDownloadInfo.t) :=
  match found with
  | None => ([], inl (HTTPException 404))
  | Some v =>
      match can_user_view_video json_loads v u with
      | inl e => ([], inl e)
      | inr false => ([], inl (HTTPException 403))
      | inr true =>
          match tos_uuid_path (VideoRow.tos_path v) with
          | inl e => ([], inl e)
          | inr uuid_path =>
              if negb (forallb valid_file_type file_types) then ([], inl (HTTPException 400))
              else
                let prefixes := map (fun t => uuid_path ++ "/" ++ t ++ "/") file_types in
                let files_to_zip :=
                  flat_map (fun t => match listing (uuid_path ++ "/" ++ t ++ "/") with
                                     | inl _ => []
                                     | inr keys => collect_keys t sign keys
                                     end) file_types in
                match files_to_zip with
                | [] => (prefixes, inl (HTTPException 404))
                | _ => (prefixes, inr files_to_zip)
                end
          end
      end
  end.

Local Close Scope string_scope.

(* ------------------------------------------------------------------ *)
(** ** Auxiliary notions for the statements *)

(** Range conditions under which every [to_bytes] of the entry loop succeeds. *)
Definition entry_fits (hs : Z) (e : Z * Z) : Prop :=
  0 <= fst e < 2 ^ 32 /\ 0 <= snd e + hs < 2 ^ 64.

(** The header as [add_header] writes it when no conversion overflows. *)
Definition header_bytes (idx : gop_index) (nf : Z) : list Z :=
  magic ++ le_bytes 4 (header_size_of idx) ++ le_bytes 4 (Z.of_nat (List.length idx))
        ++ le_bytes 4 nf ++ List.concat (map (entry_bytes (header_size_of idx)) idx).

(** The range conditions of a successful [add_header] run. *)
Definition header_fits (idx : gop_index) (nf : Z) : Prop :=
  Forall (entry_fits (header_size_of idx)) idx /\ 0 <= nf < 2 ^ 32
  /\ header_size_of idx < 2 ^ 32.

(** The fields [add_header] converts with [int.to_bytes], in the order it
    writes them: the header size, the entry count, the frame count, then the
    frame index and the adjusted offset of each entry; each with its width
    in bytes. *)
Definition header_fields (idx : gop_index) (nf : Z) : list (Z * nat) :=
  (header_size_of idx, 4%nat) :: (Z.of_nat (List.length idx), 4%nat) :: (nf, 4%nat) ::
  flat_map (fun e => [(fst e, 4%nat); (snd e + header_size_of idx, 8%nat)]) idx.

(** [int.to_bytes] succeeds on a field. *)
Definition field_fits (f : Z * nat) : bool :=
  (0 <=? fst f) && (fst f <? 2 ^ (8 * Z.of_nat (snd f))).

(** The bytes written for a field that fits. *)
Definition field_bytes (f : Z * nat) : list Z := le_bytes (snd f) (fst f).

(** Converting and writing a list of fields, then running [k]. *)
Fixpoint write_fields_then (fs : list (Z * nat)) (k : fout unit) : fout unit :=
  match fs with
  | [] => k
  | f :: rest => b <- to_bytes (fst f) (snd f) ;; fwrite b ;;; write_fields_then rest k
  end.

(** [sorted]'s order on the files of a group. *)
Definition name_le (a b : upload_file) : Prop := String.leb (sort_key a) (sort_key b) = true.

(** [x] occurs in [s]. *)
Definition infix (x s : string) : Prop := exists pre suf, s = (pre ++ x ++ suf)%string.

(** The number of tasks inside the semaphore. *)
Definition holding_count (l : list phase) : Z := Z.of_nat (List.length (filter is_holding l)).

Definition holding_bit (p : phase) : Z := if is_holding p then 1 else 0.

(** All characters of [s] are ASCII digits. *)
Fixpoint all_digits (s : string) : bool :=
  match s with
  | EmptyString => true
  | String c rest => is_digit c && all_digits rest
  end.

(** The store answers the listing calls with the pages [ps], starting from
    continuation token [tok]: a truncated page with a non-empty token is
    followed by the page returned for that token; the last page is not
    truncated or has no (or an empty) token. *)
Inductive listing_run (service : option string -> exn + list_page) :
    option string -> list list_page -> Prop :=
| listing_last (tok : option string) (p : list_page) :
    service tok = inr p ->
    is_truncated p = false \/ next_continuation_token p = None \/
    next_continuation_token p = Some EmptyString ->
    listing_run service tok [p]
| listing_more (tok : option string) (p : list_page) (t : string) (ps : list list_page) :
    service tok = inr p -> is_truncated p = true -> next_continuation_token p = Some t ->
    t <> EmptyString -> listing_run service (Some t) ps ->
    listing_run service tok (p :: ps).

(** A small run of [add_header]. *)
Example add_header_small :
  run_file (add_header [7; 9] (Some [(0, 0); (30, 188)]) (Some 60)) =
  (magic ++ [44;0;0;0] ++ [2;0;0;0] ++ [60;0;0;0]
         ++ [0;0;0;0] ++ [44;0;0;0;0;0;0;0]
         ++ [30;0;0;0] ++ [232;0;0;0;0;0;0;0] ++ [7; 9], inr tt).
Proof. reflexivity. Qed.

(* ------------------------------------------------------------------ *)
(** ** Facts about the byte encoders *)

Lemma length_le_bytes (len : nat) (n : Z) : List.length (le_bytes len n) = len.
Proof. revert n; induction len; intros n; simpl; [reflexivity | now rewrite IHlen]. Qed.

Lemma from_le_le_bytes (len : nat) (n : Z) :
  0 <= n < 2 ^ (8 * Z.of_nat len) -> from_le (le_bytes len n) = n.
Proof.
  revert n; induction len as [|k IH]; intros n Hn.
  - simpl in *. lia.
  - cbn [le_bytes from_le].
    rewrite IH.
    + change 255 with (Z.ones 8).
      rewrite Z.land_ones by lia. rewrite Z.shiftr_div_pow2 by lia.
      change (2 ^ 8) with 256.
      pose proof (Z.div_mod n 256). lia.
    + rewrite Z.shiftr_div_pow2 by lia. change (2 ^ 8) with 256.
      split; [apply Z.div_pos; lia|].
      apply Z.div_lt_upper_bound; [lia|].
      replace (8 * Z.of_nat (S k)) with (8 + 8 * Z.of_nat k) in Hn by lia.
      rewrite Z.pow_add_r in Hn by lia. change (2 ^ 8) with 256 in Hn. lia.
Qed.

Lemma to_bytes_ok (n : Z) (len : nat) (w : list Z) :
  0 <= n < 2 ^ (8 * Z.of_nat len) -> to_bytes n len w = (w, inr (le_bytes len n)).
Proof.
  intros Hn. unfold to_bytes.
  destruct (0 <=? n) eqn:E1; [|apply Z.leb_gt in E1; lia].
  destruct (n <? 2 ^ (8 * Z.of_nat len)) eqn:E2; [reflexivity|].
  apply Z.ltb_ge in E2; lia.
Qed.

Lemma to_bytes_overflow (n : Z) (len : nat) (w : list Z) :
  ~ (0 <= n < 2 ^ (8 * Z.of_nat len)) -> to_bytes n len w = (w, inl OverflowError).
Proof.
  intros Hn. unfold to_bytes.
  destruct (0 <=? n) eqn:E1; destruct (n <? 2 ^ (8 * Z.of_nat len)) eqn:E2;
    try reflexivity.
  apply Z.leb_le in E1; apply Z.ltb_lt in E2; lia.
Qed.

Lemma firstn_app_exact {A} (l1 l2 : list A) (n : nat) :
  List.length l1 = n -> firstn n (l1 ++ l2) = l1.
Proof. intros <-. rewrite firstn_app, Nat.sub_diag, firstn_all. simpl. apply app_nil_r. Qed.

Lemma skipn_app_exact {A} (l1 l2 : list A) (n : nat) :
  List.length l1 = n -> skipn n (l1 ++ l2) = l2.
Proof. intros <-. rewrite skipn_app, Nat.sub_diag, skipn_all. reflexivity. Qed.

Lemma fbind_inr {A B} (m : fout A) (k : A -> fout B) (w w' : list Z) (a : A) :
  m w = (w', inr a) -> fbind m k w = k a w'.
Proof. intros H. unfold fbind. now rewrite H. Qed.

Lemma fbind_inl {A B} (m : fout A) (k : A -> fout B) (w w' : list Z) (e : exn) :
  m w = (w', inl e) -> fbind m k w = (w', inl e).
Proof. intros H. unfold fbind. now rewrite H. Qed.

Lemma fbind_fwrite {B} (bs : list Z) (k : unit -> fout B) (w : list Z) :
  fbind (fwrite bs) k w = k tt (w ++ bs).
Proof. reflexivity. Qed.

(* ------------------------------------------------------------------ *)
(** ** The index table *)


Lemma write_entries_ok (hs : Z) (idx : gop_index) (w : list Z) :
  Forall (entry_fits hs) idx ->
  write_entries hs idx w = (w ++ List.concat (map (entry_bytes hs) idx), inr tt).
Proof.
  revert w; induction idx as [|[fi off] rest IH]; intros w Hf.
  - simpl. now rewrite app_nil_r.
  - inversion Hf as [|? ? [H1 H2] Hr]; subst. simpl in H1, H2.
    cbn [write_entries]. unfold fbind.
    rewrite to_bytes_ok by (simpl; lia). unfold fwrite.
    rewrite to_bytes_ok by (simpl; lia).
    rewrite IH by assumption.
    cbn [map List.concat]. unfold entry_bytes; simpl fst; simpl snd.
    now rewrite !app_assoc.
Qed.

Lemma length_entries (hs : Z) (idx : gop_index) :
  List.length (List.concat (map (entry_bytes hs) idx)) = (12 * List.length idx)%nat.
Proof.
  induction idx as [|e rest IH]; [reflexivity|].
  cbn [map List.concat List.length]. rewrite length_app, IH.
  unfold entry_bytes. rewrite length_app, !length_le_bytes. lia.
Qed.

Lemma read_entries_table (hs : Z) (idx : gop_index) (rest : list Z) :
  Forall (entry_fits hs) idx ->
  read_entries (List.length idx) (List.concat (map (entry_bytes hs) idx) ++ rest)
  = map (fun e => (fst e, snd e + hs)) idx.
Proof.
  induction idx as [|[fi off] tl IH]; intros Hf; [reflexivity|].
  inversion Hf as [|? ? [H1 H2] Hr]; subst. simpl in H1, H2.
  cbn [List.length read_entries map List.concat]. unfold entry_bytes; simpl fst; simpl snd.
  rewrite <- !app_assoc.
  rewrite firstn_app_exact by apply length_le_bytes.
  rewrite skipn_app_exact by apply length_le_bytes.
  rewrite firstn_app_exact by apply length_le_bytes.
  rewrite (app_assoc (le_bytes 4 fi)).
  rewrite skipn_app_exact by (rewrite length_app, !length_le_bytes; reflexivity).
  rewrite !from_le_le_bytes by (simpl; lia).
  f_equal. now apply IH.
Qed.

(* ------------------------------------------------------------------ *)
(** ** Layout of a successfully built header *)



Lemma length_header_bytes (idx : gop_index) (nf : Z) :
  List.length (header_bytes idx nf) = Z.to_nat (header_size_of idx).
Proof.
  unfold header_bytes, header_size_of.
  rewrite !length_app, !length_le_bytes, length_entries. simpl List.length. lia.
Qed.

Lemma add_header_layout (P : list Z) (idx : gop_index) (nf : Z) :
  header_fits idx nf ->
  run_file (add_header P (Some idx) (Some nf)) = (header_bytes idx nf ++ P, inr tt).
Proof.
  intros (Hent & Hnf & Hhs).
  assert (Hcnt : 0 <= Z.of_nat (List.length idx) < 2 ^ 32)
    by (unfold header_size_of in Hhs; lia).
  assert (Hhs0 : 0 <= header_size_of idx < 2 ^ 32)
    by (unfold header_size_of in *; lia).
  unfold run_file, add_header. fold (header_size_of idx).
  rewrite fbind_fwrite.
  rewrite (fbind_inr _ _ _ _ _ (to_bytes_ok _ 4 _ Hhs0)), fbind_fwrite.
  rewrite (fbind_inr _ _ _ _ _ (to_bytes_ok _ 4 _ Hcnt)), fbind_fwrite.
  rewrite (fbind_inr _ _ _ _ _ (to_bytes_ok _ 4 _ Hnf)), fbind_fwrite.
  rewrite (fbind_inr _ _ _ _ _ (write_entries_ok _ _ _ Hent)).
  unfold fwrite, header_bytes. rewrite app_nil_l, <- !app_assoc. reflexivity.
Qed.

Lemma read_header_bytes (P : list Z) (idx : gop_index) (nf : Z) :
  header_fits idx nf ->
  read_indexed_ts (header_bytes idx nf ++ P)
  = Some (magic, header_size_of idx, Z.of_nat (List.length idx), nf,
          map (fun e => (fst e, snd e + header_size_of idx)) idx, P).
Proof.
  intros (Hent & Hnf & Hhs).
  assert (Hcnt : 0 <= Z.of_nat (List.length idx) < 2 ^ 32)
    by (unfold header_size_of in Hhs; lia).
  assert (Hhs0 : 0 <= header_size_of idx < 2 ^ 32)
    by (unfold header_size_of in *; lia).
  assert (Hlen : List.length (header_bytes idx nf ++ P)
                 = (Z.to_nat (header_size_of idx) + List.length P)%nat)
    by (rewrite length_app, length_header_bytes; reflexivity).
  unfold read_indexed_ts.
  rewrite Hlen.
  replace (Nat.ltb (Z.to_nat (header_size_of idx) + List.length P) 20) with false
    by (symmetry; apply Nat.ltb_ge; unfold header_size_of; lia).
  set (B := header_bytes idx nf ++ P).
  assert (HB : B = magic ++ le_bytes 4 (header_size_of idx)
                 ++ le_bytes 4 (Z.of_nat (List.length idx)) ++ le_bytes 4 nf
                 ++ List.concat (map (entry_bytes (header_size_of idx)) idx) ++ P)
    by (unfold B, header_bytes; now rewrite <- !app_assoc).
  assert (E8 : skipn 8 B = le_bytes 4 (header_size_of idx)
                 ++ le_bytes 4 (Z.of_nat (List.length idx)) ++ le_bytes 4 nf
                 ++ List.concat (map (entry_bytes (header_size_of idx)) idx) ++ P)
    by (rewrite HB; now apply skipn_app_exact).
  assert (E12 : skipn 12 B = le_bytes 4 (Z.of_nat (List.length idx)) ++ le_bytes 4 nf
                 ++ List.concat (map (entry_bytes (header_size_of idx)) idx) ++ P)
    by (change 12%nat with (4 + 8)%nat; rewrite <- skipn_skipn, E8;
        apply skipn_app_exact, length_le_bytes).
  assert (E16 : skipn 16 B = le_bytes 4 nf
                 ++ List.concat (map (entry_bytes (header_size_of idx)) idx) ++ P)
    by (change 16%nat with (4 + 12)%nat; rewrite <- skipn_skipn, E12;
        apply skipn_app_exact, length_le_bytes).
  assert (E20 : skipn 20 B = List.concat (map (entry_bytes (header_size_of idx)) idx) ++ P)
    by (change 20%nat with (4 + 16)%nat; rewrite <- skipn_skipn, E16;
        apply skipn_app_exact, length_le_bytes).
  rewrite E8, E12, E16, E20.
  rewrite !firstn_app_exact by apply length_le_bytes.
  rewrite !from_le_le_bytes by (simpl; lia).
  replace (firstn 8 B) with magic by (rewrite HB; symmetry; now apply firstn_app_exact).
  replace (Nat.ltb _ _) with false by (symmetry; apply Nat.ltb_ge; lia).
  rewrite Nat2Z.id, read_entries_table by exact Hent.
  unfold B. rewrite (skipn_app_exact (header_bytes idx nf) P) by apply length_header_bytes.
  reflexivity.
Qed.

Lemma add_header_header_overflow (P : list Z) (idx : gop_index) (nf : option Z) :
  ~ (0 <= header_size_of idx < 2 ^ 32) ->
  run_file (add_header P (Some idx) nf) = (magic, inl OverflowError).
Proof.
  intros Hov. unfold run_file, add_header. fold (header_size_of idx).
  rewrite fbind_fwrite.
  rewrite (fbind_inl _ _ _ _ _ (to_bytes_overflow _ 4 _ Hov)).
  reflexivity.
Qed.

Lemma fbind_assoc {A B C} (m : fout A) (f : A -> fout B) (k : B -> fout C) (w : list Z) :
  fbind (fbind m f) k w = fbind m (fun a => fbind (f a) k) w.
Proof. unfold fbind. destruct (m w) as [w' [e|a]]; reflexivity. Qed.

Lemma fbind_to_bytes {B} (n : Z) (len : nat) (k : list Z -> fout B) (w : list Z) :
  fbind (to_bytes n len) k w
  = if (0 <=? n) && (n <? 2 ^ (8 * Z.of_nat len)) then k (le_bytes len n) w
    else (w, inl OverflowError).
Proof. unfold fbind, to_bytes. destruct (_ && _); reflexivity. Qed.

Lemma write_entries_then (hs : Z) (idx : gop_index) (k : fout unit) (w : list Z) :
  fbind (write_entries hs idx) (fun _ => k) w
  = write_fields_then (flat_map (fun e => [(fst e, 4%nat); (snd e + hs, 8%nat)]) idx) k w.
Proof.
  revert w; induction idx as [|[fi off] rest IH]; intros w; [reflexivity|].
  cbn [write_entries flat_map app write_fields_then fst snd].
  rewrite fbind_assoc, !fbind_to_bytes. destruct (_ && _); [|reflexivity]. cbv beta.
  rewrite fbind_assoc, !fbind_fwrite, fbind_assoc, !fbind_to_bytes.
  destruct (_ && _); [|reflexivity]. cbv beta.
  rewrite fbind_assoc, !fbind_fwrite. apply IH.
Qed.

Lemma add_header_fields (P : list Z) (idx : gop_index) (nf : Z) (w : list Z) :
  add_header P (Some idx) (Some nf) w
  = write_fields_then (header_fields idx nf) (fwrite P) (w ++ magic).
Proof.
  unfold add_header. rewrite fbind_fwrite. fold (header_size_of idx).
  unfold header_fields. cbn [write_fields_then fst snd].
  rewrite !fbind_to_bytes. destruct (_ && _); [|reflexivity]. cbv beta.
  rewrite !fbind_fwrite, !fbind_to_bytes. destruct (_ && _); [|reflexivity]. cbv beta.
  rewrite !fbind_fwrite, !fbind_to_bytes. destruct (_ && _); [|reflexivity]. cbv beta.
  rewrite !fbind_fwrite. apply write_entries_then.
Qed.

Lemma write_fields_then_overflow (fs : list (Z * nat)) (k : fout unit) (w : list Z) :
  forallb field_fits fs = false ->
  exists j f, nth_error fs j = Some f /\ field_fits f = false /\
    forallb field_fits (firstn j fs) = true /\
    write_fields_then fs k w = (w ++ List.concat (map field_bytes (firstn j fs)), inl OverflowError).
Proof.
  revert w; induction fs as [|f rest IH]; intros w H; [discriminate H|].
  cbn [forallb] in H. destruct (field_fits f) eqn:Hf.
  - destruct (IH (w ++ field_bytes f) H) as (j & g & Hn & Hg & Hp & Hr).
    exists (S j), g. split; [exact Hn|]. split; [exact Hg|].
    cbn [firstn forallb map List.concat]. rewrite Hf. split; [exact Hp|].
    cbn [write_fields_then]. unfold fbind at 1.
    rewrite to_bytes_ok; [|unfold field_fits in Hf; apply andb_true_iff in Hf as [H1 H2];
                            apply Z.leb_le in H1; apply Z.ltb_lt in H2; lia].
    unfold fbind, fwrite. unfold field_bytes in Hr. rewrite Hr. now rewrite app_assoc.
  - exists O, f. split; [reflexivity|]. split; [exact Hf|]. split; [reflexivity|].
    cbn [write_fields_then firstn map List.concat]. unfold fbind at 1.
    rewrite to_bytes_overflow; [now rewrite app_nil_r|].
    unfold field_fits in Hf. intros [H1 H2].
    apply Z.leb_le in H1. apply Z.ltb_lt in H2. rewrite H1, H2 in Hf. discriminate Hf.
Qed.

Lemma fields_fit_header_fits (idx : gop_index) (nf : Z) :
  forallb field_fits (header_fields idx nf) = true -> header_fits idx nf.
Proof.
  unfold header_fields, field_fits. cbn [forallb fst snd].
  rewrite !andb_true_iff, !Z.leb_le, !Z.ltb_lt. intros ((Hhs1 & Hhs2) & _ & (Hnf1 & Hnf2) & Hent).
  split; [|split; [split; [exact Hnf1 | exact Hnf2] | exact Hhs2]].
  rewrite forallb_forall in Hent. apply Forall_forall. intros [fi off] Hin.
  assert (H1 := Hent (fi, 4%nat)). assert (H2 := Hent (off + header_size_of idx, 8%nat)).
  rewrite in_flat_map in H1, H2.
  specialize (H1 (ex_intro _ (fi, off) (conj Hin (or_introl eq_refl)))).
  specialize (H2 (ex_intro _ (fi, off) (conj Hin (or_intror (or_introl eq_refl))))).
  simpl in H1, H2. rewrite !andb_true_iff, !Z.leb_le, !Z.ltb_lt in H1, H2.
  unfold entry_fits. simpl. change (2 ^ (8 * Z.of_nat 4)) with (2 ^ 32) in H1.
  change (2 ^ (8 * Z.of_nat 8)) with (2 ^ 64) in H2. lia.
Qed.

Lemma gop_range_succ (n : N) : gop_range (N.succ n) = gop_range n ++ [(Z.of_N n, 0)].
Proof. unfold gop_range. now rewrite N.peano_rect_succ. Qed.

Lemma length_gop_range (n : N) : Z.of_nat (List.length (gop_range n)) = Z.of_N n.
Proof.
  induction n as [|n IH] using N.peano_ind; [reflexivity|].
  rewrite gop_range_succ, length_app. simpl List.length. lia.
Qed.

Lemma gop_range_bounds (n : N) :
  Forall (fun e => 0 <= fst e < Z.of_N n /\ snd e = 0) (gop_range n).
Proof.
  induction n as [|n IH] using N.peano_ind; [constructor|].
  rewrite gop_range_succ. apply Forall_app; split.
  - eapply Forall_impl; [|exact IH]. simpl. intros e [? ?]; split; lia.
  - constructor; [simpl; lia | constructor].
Qed.

Lemma gop_range_keys_nodup (n : N) : NoDup (map fst (gop_range n)).
Proof.
  induction n as [|n IH] using N.peano_ind; [constructor|].
  rewrite gop_range_succ, map_app. apply NoDup_app; [exact IH | repeat constructor; easy |].
  intros k Hk Hin. simpl in Hin. destruct Hin as [Hk' | []].
  apply in_map_iff in Hk as [e [He' He]]. subst k.
  pose proof (proj1 (Forall_forall _ _) (gop_range_bounds n) e He) as Hb.
  cbv beta in Hb. lia.
Qed.

(* ------------------------------------------------------------------ *)
(** ** Facts about the scanner *)

Lemma split_on_app_sep (sep : ascii) (a b : string) :
  str_has sep a = false ->
  split_on sep (a ++ String sep b)%string = a :: split_on sep b.
Proof.
  induction a as [|c a IH]; intros Ha.
  - simpl. now rewrite Ascii.eqb_refl.
  - simpl in Ha. apply orb_false_iff in Ha as [Hc Ha].
    simpl. rewrite Ascii.eqb_sym, Hc, IH by exact Ha. reflexivity.
Qed.

Lemma dec_aux_no_comma (fuel : nat) (n : N) (acc : string) :
  str_has "," acc = false -> str_has "," (dec_aux fuel n acc) = false.
Proof.
  revert n acc; induction fuel as [|f IH]; intros n acc Hacc; [exact Hacc|].
  assert (Hd : Ascii.eqb "," (ascii_of_N (48 + n mod 10)) = false).
  { apply Ascii.eqb_neq. intros Heq.
    assert (Hm : (n mod 10 < 10)%N) by (apply N.mod_lt; discriminate).
    apply (f_equal N_of_ascii) in Heq.
    rewrite Ascii.N_ascii_embedding in Heq.
    - change (N_of_ascii ",") with 44%N in Heq.
      apply (f_equal Z.of_N) in Heq. rewrite N2Z.inj_add in Heq.
      pose proof (N2Z.is_nonneg (n mod 10)). lia.
    - apply (N.lt_le_trans _ (48 + 10)); [apply N.add_lt_mono_l; exact Hm | discriminate]. }
  cbn [dec_aux]. destruct (N.eqb (n / 10) 0).
  - cbn [str_has]. now rewrite Hd, Hacc.
  - apply IH. cbn [str_has]. now rewrite Hd, Hacc.
Qed.

Lemma py_str_nat_no_comma (i : nat) : str_has "," (py_str_nat i) = false.
Proof. apply dec_aux_no_comma. reflexivity. Qed.

Lemma split_numbered_line (i : nat) (line : string) :
  split_on "," (py_str_nat i ++ "," ++ line)%string = py_str_nat i :: split_on "," line.
Proof. apply split_on_app_sep, py_str_nat_no_comma. Qed.

Lemma in_number_lines (k : nat) (lines : list string) (line : string) :
  In line lines -> exists i, In (py_str_nat i ++ "," ++ line)%string (number_lines k lines).
Proof.
  revert k; induction lines as [|l rest IH]; intros k Hin; [destruct Hin|].
  destruct Hin as [<- | Hin].
  - exists k. now left.
  - destruct (IH (S k) Hin) as [i Hi]. exists i. now right.
Qed.

Lemma iframes_of_unparseable (frames : list string) (acc : gop_index) (i : nat) (line : string) :
  In (py_str_nat i ++ "," ++ line)%string frames -> ffprobe_line_unparseable line = true ->
  exists e, iframes_of frames acc = inl e.
Proof.
  revert acc; induction frames as [|l rest IH]; intros acc Hin Hbad; [destruct Hin|].
  destruct Hin as [-> | Hin].
  - cbn [iframes_of]. rewrite split_numbered_line.
    unfold ffprobe_line_unparseable in Hbad.
    destruct (split_on "," line) as [|pos [|t more]] eqn:Hs; cbn [nth_error nth].
    + eauto.
    + eauto.
    + apply andb_true_iff in Hbad as [Ht Hp]. rewrite Ht.
      destruct (py_int pos); [discriminate Hp|].
      destruct (py_int (py_str_nat i)); eauto.
  - cbn [iframes_of].
    destruct (nth_error (split_on "," l) 2) as [t|]; [|eauto].
    destruct (String.eqb t "I"); [|now apply IH].
    destruct (py_int (nth 0 (split_on "," l) EmptyString)); [|eauto].
    destruct (py_int (nth 1 (split_on "," l) EmptyString)); [|eauto].
    now apply IH.
Qed.

(* ------------------------------------------------------------------ *)
(** ** Facts about the file system model *)

Lemma files_create_same (p : string) (s : fs_state) : In p (files (fs_create p s)).
Proof.
  unfold fs_create; simpl. destruct (existsb (String.eqb p) (files s)) eqn:E.
  - apply existsb_exists in E as [q [Hq Heq]]. apply String.eqb_eq in Heq. now subst.
  - now left.
Qed.

Lemma files_create_other (p q : string) (s : fs_state) :
  In q (files s) -> In q (files (fs_create p s)).
Proof. unfold fs_create; simpl. destruct (existsb _ _); [auto | now right]. Qed.

Lemma files_unlink_other (p q : string) (s : fs_state) :
  In q (files s) -> p <> q -> In q (files (fs_unlink p s)).
Proof.
  intros Hq Hpq. unfold fs_unlink; simpl. apply filter_In. split; [exact Hq|].
  apply negb_true_iff, String.eqb_neq. exact Hpq.
Qed.

Lemma written_create (p q : string) (s : fs_state) :
  In q (written s) -> In q (written (fs_create p s)).
Proof. intros H. unfold fs_create; simpl. apply in_or_app. now left. Qed.

Lemma written_create_same (p : string) (s : fs_state) : In p (written (fs_create p s)).
Proof. unfold fs_create; simpl. apply in_or_app. right. now left. Qed.

Lemma written_unlink (p : string) (s : fs_state) : written (fs_unlink p s) = written s.
Proof. reflexivity. Qed.

(* ------------------------------------------------------------------ *)
(** ** Facts about the orchestrator *)

Lemma gather_fails (tasks : list (list event * (exn + unit))) (t : list event * (exn + unit)) (e : exn) :
  In t tasks -> snd t = inl e -> snd (gather tasks) = false.
Proof.
  intros Hin Ht. unfold gather. simpl snd.
  destruct (forallb task_ok tasks) eqn:Hf; [|reflexivity].
  rewrite forallb_forall in Hf. specialize (Hf t Hin). unfold task_ok in Hf.
  rewrite Ht in Hf. discriminate Hf.
Qed.

Lemma in_number_from (n : nat) (l : list upload_file) (f : upload_file) :
  In f l -> exists i, In (f, i) (number_from n l).
Proof.
  revert n; induction l as [|g rest IH]; intros n Hin; [destruct Hin|].
  destruct Hin as [-> | Hin].
  - exists n. now left.
  - destruct (IH (S n) Hin) as [i Hi]. exists i. now right.
Qed.

Lemma nth_error_number_from (n k : nat) (l : list upload_file) :
  nth_error (number_from n l) k = option_map (fun f => (f, (n + k)%nat)) (nth_error l k).
Proof.
  revert n k; induction l as [|f rest IH]; intros n k; [destruct k; reflexivity|].
  destruct k as [|k]; simpl.
  - now rewrite Nat.add_0_r.
  - rewrite IH. now rewrite Nat.add_succ_r.
Qed.


Lemma leb_flip (a b : string) : String.leb a b = false -> String.leb b a = true.
Proof. intros H. destruct (String.leb_total a b) as [H'|H']; [congruence | exact H']. Qed.

Lemma insert_by_name_hd (a x : upload_file) (l : list upload_file) :
  name_le a x -> HdRel name_le a l -> HdRel name_le a (insert_by_name x l).
Proof.
  intros Hax Hal. destruct l as [|y ys]; simpl.
  - now constructor.
  - destruct (String.leb (sort_key x) (sort_key y)); constructor; [exact Hax|].
    now inversion Hal.
Qed.

Lemma insert_by_name_sorted (x : upload_file) (l : list upload_file) :
  Sorted name_le l -> Sorted name_le (insert_by_name x l).
Proof.
  induction l as [|y ys IH]; intros Hs; simpl.
  - repeat constructor.
  - destruct (String.leb (sort_key x) (sort_key y)) eqn:E.
    + constructor; [exact Hs|]. now constructor.
    + inversion Hs as [|? ? Hys Hhd]; subst. constructor.
      * now apply IH.
      * apply insert_by_name_hd; [now apply leb_flip | exact Hhd].
Qed.

Lemma sort_by_name_sorted (l : list upload_file) : Sorted name_le (sort_by_name l).
Proof. induction l; simpl; [constructor | now apply insert_by_name_sorted]. Qed.

Lemma insert_by_name_perm (x : upload_file) (l : list upload_file) :
  Permutation (x :: l) (insert_by_name x l).
Proof.
  induction l as [|y ys IH]; simpl; [reflexivity|].
  destruct (String.leb (sort_key x) (sort_key y)); [reflexivity|].
  transitivity (y :: x :: ys); [apply perm_swap | now constructor].
Qed.

Lemma sort_by_name_perm (l : list upload_file) : Permutation l (sort_by_name l).
Proof.
  induction l as [|x xs IH]; simpl; [reflexivity|].
  transitivity (x :: sort_by_name xs); [now constructor | apply insert_by_name_perm].
Qed.

Lemma group_tasks_nth (files : list upload_file) (k : nat) (f : upload_file) (i : nat) :
  nth_error (group_tasks files) k = Some (f, i) <->
  nth_error (sort_by_name files) k = Some f /\ i = S k.
Proof.
  unfold group_tasks. rewrite nth_error_number_from.
  destruct (nth_error (sort_by_name files) k); simpl; split.
  - intros H; inversion H; subst; auto.
  - intros [H ->]; inversion H; subst; reflexivity.
  - discriminate.
  - intros [H _]; discriminate.
Qed.

(* ------------------------------------------------------------------ *)
(** ** Facts about delete-by-prefix *)

Lemma delete_loop_eq (ok : string -> bool) (keys tried failed : list string) :
  delete_loop ok keys tried failed =
  ((tried ++ keys)%list, (failed ++ filter (fun k => negb (ok k)) keys)%list).
Proof.
  revert tried failed; induction keys as [|k rest IH]; intros tried failed; simpl.
  - now rewrite !app_nil_r.
  - rewrite IH, <- !app_assoc. simpl.
    destruct (ok k); simpl; [reflexivity|]. now rewrite <- app_assoc.
Qed.

Lemma str_app_assoc (a b c : string) : ((a ++ b) ++ c)%string = (a ++ b ++ c)%string.
Proof. induction a as [|x a IH]; simpl; [reflexivity | now rewrite IH]. Qed.


Lemma infix_app_l (a x b : string) : infix x b -> infix x (a ++ b).
Proof. intros (pre & suf & ->). exists (a ++ pre)%string, suf. now rewrite str_app_assoc. Qed.

Lemma infix_app_r (x a b : string) : infix x a -> infix x (a ++ b).
Proof. intros (pre & suf & ->). exists pre, (suf ++ b)%string. now rewrite !str_app_assoc. Qed.

Lemma join_in (sep x : string) (l : list string) :
  In x l -> exists pre suf, join sep l = (pre ++ x ++ suf)%string.
Proof.
  induction l as [|y rest IH]; intros Hin; [destruct Hin|].
  destruct rest as [|z rest'].
  - destruct Hin as [-> | []]. exists EmptyString, EmptyString. simpl.
    induction x as [|c x IHx]; simpl; [reflexivity | now rewrite <- IHx].
  - destruct Hin as [-> | Hin].
    + exists EmptyString, (sep ++ join sep (z :: rest'))%string. reflexivity.
    + destruct (IH Hin) as (pre & suf & E).
      exists (y ++ sep ++ pre)%string, suf.
      change (join sep (y :: z :: rest')) with (y ++ sep ++ join sep (z :: rest'))%string.
      rewrite E, !str_app_assoc. reflexivity.
Qed.

(* ------------------------------------------------------------------ *)
(** ** Facts about the temporary files, the endpoints and the store *)

Lemma in_files_create (p q : string) (s : fs_state) :
  In q (files (fs_create p s)) <-> q = p \/ In q (files s).
Proof.
  unfold fs_create; simpl. destruct (existsb (String.eqb p) (files s)) eqn:E.
  - apply existsb_exists in E as [r [Hr Heq]]. apply String.eqb_eq in Heq. subst r.
    split; [now right | intros [-> | H]; assumption].
  - simpl. split; intros [H | H]; auto.
Qed.

Lemma in_files_unlink_if (p q : string) (s : fs_state) :
  In q (files (if fs_exists p s then fs_unlink p s else s)) <-> q <> p /\ In q (files s).
Proof.
  unfold fs_exists, fs_unlink. destruct (existsb (String.eqb p) (files s)) eqn:E; simpl.
  - rewrite filter_In, negb_true_iff, String.eqb_neq. split; intros [H1 H2]; auto.
  - split; [|tauto]. intros H. split; [|exact H]. intros ->.
    assert (existsb (String.eqb p) (files s) = true) by (apply existsb_exists; exists p; split; [exact H | apply String.eqb_refl]).
    congruence.
Qed.

Lemma convert_to_indexed_ts_file_files (output_file : string) (ffmpeg_rc : Z) (created : bool)
    (payload : list Z) (probe : proc_result) (s : fs_state) (p : string) :
  p <> output_file ->
  (In p (files (fst (convert_to_indexed_ts_file output_file ffmpeg_rc created payload probe s)))
   <-> In p (files s) \/ (p = converted_ts /\ created = true)).
Proof.
  intros Hp. unfold convert_to_indexed_ts_file.
  assert (H1 : In p (files (if created then fs_create converted_ts s else s))
               <-> In p (files s) \/ (p = converted_ts /\ created = true)).
  { destruct created; [rewrite in_files_create|]; intuition congruence. }
  destruct (negb (ffmpeg_rc =? 0)); [exact H1|].
  destruct (add_index_header_to_video_file _ _ _) as [[c|] r]; simpl fst;
    rewrite ?in_files_create; [|exact H1]. rewrite H1. intuition congruence.
Qed.

Lemma convert_video_mp4_to_ts_state (tmp_name filename : string) (rc : Z) (created : bool)
    (payload : list Z) (probe : proc_result) (s : fs_state) :
  let ip := tmp_input_path tmp_name filename in
  let op := tmp_output_path filename in
  let s2 := fst (convert_to_indexed_ts_file op rc created payload probe (fs_create ip s)) in
  let s3 := if fs_exists ip s2 then fs_unlink ip s2 else s2 in
  fst (convert_video_mp4_to_ts tmp_name filename rc created payload probe s)
  = if fs_exists op s3 then fs_unlink op s3 else s3.
Proof.
  intros ip op s2 s3. subst s3 s2. unfold convert_video_mp4_to_ts. fold ip op.
  destruct (convert_to_indexed_ts_file op rc created payload probe (fs_create ip s)) as [s2 [e|u]];
    reflexivity.
Qed.

Lemma written_unlink_if (p : string) (s : fs_state) :
  written (if fs_exists p s then fs_unlink p s else s) = written s.
Proof. destruct (fs_exists p s); reflexivity. Qed.

Lemma extract_frame_outcome (tmp_name filename : string) (ff : ffmpeg_run)
    (s : fs_state) :
  let ip := tmp_input_path tmp_name filename in
  let res := extract_frame_from_video_data tmp_name filename ff s in
  (forall p, In p (files (fst res)) <-> In p (files s) /\ p <> ip /\ p <> (ip ++ ".png")%string) /\
  (forall png, snd res = inr png <-> ff = FfExit 0 (Some png)).
Proof.
  intros ip res. subst res. unfold extract_frame_from_video_data. fold ip. cbv zeta.
  set (op := (ip ++ ".png")%string).
  assert (Hfin : forall s2 q, In q (files (if fs_exists op (if fs_exists ip s2 then fs_unlink ip s2 else s2)
                                         then fs_unlink op (if fs_exists ip s2 then fs_unlink ip s2 else s2)
                                         else (if fs_exists ip s2 then fs_unlink ip s2 else s2)))
                           <-> q <> op /\ q <> ip /\ In q (files s2)).
  { intros s2 q. rewrite in_files_unlink_if, in_files_unlink_if. tauto. }
  destruct ff as [rc [png|] |]; simpl snd; simpl fst.
  - destruct (Z.eqb_spec rc 0) as [H0|H0]; simpl negb; cbv iota; simpl fst; simpl snd.
    + subst rc. split; [intros p; rewrite Hfin, !in_files_create; intuition congruence|].
      intros png'. split; intros H; inversion H; reflexivity.
    + split; [intros p; rewrite Hfin, !in_files_create; intuition congruence|].
      intros png'. split; intros H; [discriminate H | inversion H; congruence].
  - destruct (Z.eqb_spec rc 0) as [H0|H0]; simpl negb; cbv iota; simpl fst; simpl snd;
      (split; [intros p; rewrite Hfin, !in_files_create; intuition congruence|]);
      intros png'; split; intros H; discriminate H.
  - split; [intros p; rewrite Hfin, !in_files_create; intuition congruence|].
    intros png'; split; intros H; discriminate H.
Qed.

Lemma filter_negb_nil_forallb {A} (f : A -> bool) (l : list A) :
  filter (fun k => negb (f k)) l = [] <-> forallb f l = true.
Proof.
  induction l as [|x l IH]; simpl; [tauto|].
  destruct (f x); simpl; [exact IH | split; intros H; discriminate H].
Qed.

Lemma delete_by_prefix_outcome (listing : string + list string) (ok : string -> bool) :
  (forall msg, listing = inl msg -> delete_tos_objects_by_prefix listing ok = ([], inl (RuntimeError ("列出 TOS 对象失败: " ++ msg)%string))) /\
  (forall keys, listing = inr keys ->
     fst (delete_tos_objects_by_prefix listing ok) = keys /\
     (snd (delete_tos_objects_by_prefix listing ok) = inr tt <-> forallb ok keys = true) /\
     (forall e, snd (delete_tos_objects_by_prefix listing ok) = inl e -> exists m, e = RuntimeError m)).
Proof.
  split; intros x ->; [reflexivity|].
  unfold delete_tos_objects_by_prefix. rewrite delete_loop_eq. simpl.
  rewrite <- filter_negb_nil_forallb.
  destruct (filter _ x); simpl; (split; [reflexivity|]).
  - split; [tauto|]. intros e H; discriminate H.
  - split; [split; intros H; discriminate H|]. intros e H; inversion H; eauto.
Qed.

Lemma filter_exn_filter_false {A} (p : A -> exn + bool) (q : A -> bool) (l : list A) :
  (forall x, q x = false -> p x = inr false) ->
  filter_exn p (filter q l) = filter_exn p l.
Proof.
  intros Hq. induction l as [|x l IH]; simpl; [reflexivity|].
  destruct (q x) eqn:E; simpl.
  - destruct (p x); [reflexivity|]. rewrite IH. reflexivity.
  - rewrite (Hq x E), IH. destruct (filter_exn p l); reflexivity.
Qed.

Lemma filter_exn_true {A} (p : A -> exn + bool) (l : list A) :
  (forall x, p x = inr true) -> filter_exn p l = inr l.
Proof.
  intros Hp. induction l as [|x l IH]; simpl; [reflexivity|]. now rewrite Hp, IH.
Qed.

Lemma list_videos_eq (json_loads : string -> option json) (rows : list VideoRow.t) (u : User.t) :
  list_videos json_loads rows u = filter_exn (fun v => can_user_view_video json_loads v u) rows.
Proof.
  unfold list_videos. destruct (User.is_superuser u) eqn:Hs.
  - symmetry. apply filter_exn_true. intros v. unfold can_user_view_video. now rewrite Hs.
  - apply filter_exn_filter_false. intros v Hq. unfold can_user_view_video. rewrite Hs.
    apply orb_false_iff in Hq as [Hq H3]. apply orb_false_iff in Hq as [H1 H2].
    rewrite H1, H2. destruct (VideoRow.visible_to_user_ids v); [discriminate H3 | reflexivity].
Qed.

Lemma filter_exn_spec {A} (p : A -> exn + bool) (l : list A) (ys : list A) :
  filter_exn p l = inr ys -> forall y, In y ys <-> In y l /\ p y = inr true.
Proof.
  revert ys. induction l as [|x l IH]; intros ys H y; simpl in H.
  - inversion H; subst. simpl. tauto.
  - destruct (p x) as [e|b] eqn:Hp; [discriminate H|].
    destruct (filter_exn p l) as [e|zs]; [discriminate H|]. inversion H; subst ys.
    specialize (IH zs eq_refl y). destruct b; simpl.
    + rewrite IH. split; [intros [<- | [H1 H2]]; auto | intros [[<- | H1] H2]; auto].
    + rewrite IH. split; [intros [H1 H2]; auto | intros [[<- | H1] H2]; [congruence | auto]].
Qed.

Lemma existsb_py_eq_int_map_JInt (uid : Z) (l : list Z) :
  existsb (py_eq_int uid) (map JInt l) = existsb (Z.eqb uid) l.
Proof.
  induction l as [|z l IH]; simpl; [reflexivity|]. rewrite IH, Z.eqb_sym. reflexivity.
Qed.

Lemma dumps_ints_nonempty (l : list Z) : dumps_ints l <> EmptyString.
Proof. unfold dumps_ints. intros H. discriminate H. Qed.

Lemma put_keys_app (a b : list event) : put_keys (a ++ b) = put_keys a ++ put_keys b.
Proof. induction a as [|[c s|k] a IH]; simpl; [reflexivity | exact IH | now rewrite IH]. Qed.

Lemma gather_ok (ts : list (list event * (exn + unit))) :
  snd (gather ts) = true -> forall t, In t ts -> snd t = inr tt.
Proof.
  unfold gather. simpl snd. intros H t Ht. rewrite forallb_forall in H.
  specialize (H t Ht). unfold task_ok in H. destruct (snd t) as [e|[]]; [discriminate H | reflexivity].
Qed.

Lemma map_snd_number_from (n : nat) (l : list upload_file) :
  map snd (number_from n l) = seq n (List.length l).
Proof. revert n; induction l as [|f l IH]; intros n; simpl; [reflexivity | now rewrite IH]. Qed.

Lemma length_group_tasks_seq (l : list upload_file) :
  map snd (group_tasks l) = seq 1 (List.length l).
Proof.
  unfold group_tasks. rewrite map_snd_number_from.
  now rewrite (Permutation_length (sort_by_name_perm l)).
Qed.

Lemma process_video_file_keys (E : env) (kp ud : string) (f : upload_file) (i : nat) :
  snd (process_video_file E kp ud f i) = inr tt ->
  put_keys (fst (process_video_file E kp ud f i)) = [video_key kp ud i].
Proof.
  unfold process_video_file, upload, video_key.
  destruct (String.eqb _ ".mp4"%string).
  - destruct (transcode E (data f) _); simpl; [intros H; discriminate H | reflexivity].
  - destruct (String.eqb _ ".ts"%string); simpl; [reflexivity | intros H; discriminate H].
Qed.

Lemma process_background_file_keys (E : env) (kp ud : string) (f : upload_file) (i : nat) :
  snd (process_background_file E kp ud f i) = inr tt ->
  put_keys (fst (process_background_file E kp ud f i)) = [background_key kp ud i].
Proof.
  unfold process_background_file, upload, background_key.
  destruct (String.eqb _ ".mp4"%string).
  - destruct (extract E (data f) _); simpl; [intros H; discriminate H | reflexivity].
  - destruct (String.eqb _ ".png"%string); simpl; [reflexivity | intros H; discriminate H].
Qed.

Lemma group_keys (task : upload_file -> nat -> list event * (exn + unit)) (key : nat -> string)
    (l : list (upload_file * nat)) :
  (forall f i, snd (task f i) = inr tt -> put_keys (fst (task f i)) = [key i]) ->
  snd (gather (map (fun '(f, i) => task f i) l)) = true ->
  map put_keys (fst (gather (map (fun '(f, i) => task f i) l))) = map (fun i => [key i]) (map snd l).
Proof.
  intros Hk Hg. pose proof (gather_ok _ Hg) as Hall. clear Hg. unfold gather. simpl fst.
  induction l as [|[f i] l IH]; simpl; [reflexivity|].
  rewrite Hk, IH; [reflexivity| |].
  - intros t Ht. apply Hall. simpl. right. exact Ht.
  - apply Hall. simpl. left. reflexivity.
Qed.

Lemma str_app_nil_r (s : string) : (s ++ "")%string = s.
Proof. induction s as [|c s IH]; simpl; [reflexivity | now rewrite IH]. Qed.

Lemma rev_string_app (a b : string) : rev_string (a ++ b) = (rev_string b ++ rev_string a)%string.
Proof.
  induction a as [|c a IH]; simpl.
  - now rewrite str_app_nil_r.
  - rewrite IH. apply str_app_assoc.
Qed.

Lemma rev_string_involutive (s : string) : rev_string (rev_string s) = s.
Proof.
  induction s as [|c s IH]; simpl; [reflexivity|].
  rewrite rev_string_app, IH. reflexivity.
Qed.

Lemma str_has_app (c : ascii) (a b : string) : str_has c (a ++ b) = str_has c a || str_has c b.
Proof. induction a as [|d a IH]; simpl; [reflexivity|]. rewrite IH. apply orb_assoc. Qed.

Lemma str_has_rev (c : ascii) (s : string) : str_has c (rev_string s) = str_has c s.
Proof.
  induction s as [|d s IH]; simpl; [reflexivity|].
  rewrite str_has_app, IH. simpl. rewrite orb_false_r. apply orb_comm.
Qed.

Lemma rev_string_nonempty (s : string) : s <> EmptyString -> rev_string s <> EmptyString.
Proof.
  intros H Hr. apply H. rewrite <- (rev_string_involutive s), Hr. reflexivity.
Qed.

(** [lstrip] stops at a first character other than [c]. *)

Lemma lstrip_char_stop (c : ascii) (s t : string) :
  s <> EmptyString -> str_has c s = false -> lstrip_char c (s ++ t) = (s ++ t)%string.
Proof.
  destruct s as [|d s]; [intros H; contradiction H; reflexivity|]. intros _ Hs.
  simpl in Hs. apply orb_false_iff in Hs as [Hd _]. simpl.
  rewrite Ascii.eqb_sym, Hd. reflexivity.
Qed.

(** [(kp + "/" + ud).rstrip("/")] for a non-empty [ud] without a slash. *)

Lemma rstrip_slash_stop (a ud : string) :
  ud <> EmptyString -> str_has "/" ud = false ->
  rstrip_char "/" (a ++ ud) = (a ++ ud)%string.
Proof.
  intros Hn Hs. unfold rstrip_char. rewrite rev_string_app.
  rewrite lstrip_char_stop; [| now apply rev_string_nonempty | now rewrite str_has_rev].
  rewrite <- rev_string_app. apply rev_string_involutive.
Qed.

Lemma rstrip_slash_one (a ud : string) :
  ud <> EmptyString -> str_has "/" ud = false ->
  rstrip_char "/" (a ++ ud ++ "/") = (a ++ ud)%string.
Proof.
  intros Hn Hs. unfold rstrip_char. rewrite <- str_app_assoc, rev_string_app. simpl.
  rewrite rev_string_app.
  rewrite lstrip_char_stop; [| now apply rev_string_nonempty | now rewrite str_has_rev].
  rewrite <- rev_string_app. apply rev_string_involutive.
Qed.

Lemma split_once_no_sep (c : ascii) (b rest : string) :
  str_has c b = false -> split_once c (b ++ String c rest) = Some (b, rest).
Proof.
  induction b as [|d b IH]; intros Hb; simpl.
  - now rewrite Ascii.eqb_refl.
  - simpl in Hb. apply orb_false_iff in Hb as [Hd Hb].
    rewrite Ascii.eqb_sym, Hd, IH by exact Hb. reflexivity.
Qed.

Lemma substring_0_length (s : string) : substring 0 (String.length s) s = s.
Proof. induction s as [|c s IH]; simpl; [reflexivity | now rewrite IH]. Qed.

Lemma prefix_app (a b : string) : String.prefix a (a ++ b) = true.
Proof.
  induction a as [|c a IH]; simpl; [destruct b; reflexivity|].
  destruct (ascii_dec c c) as [_|n]; [exact IH | contradiction n; reflexivity].
Qed.

Lemma prefix_app_cancel (a b c : string) : String.prefix (a ++ b) (a ++ c) = String.prefix b c.
Proof.
  induction a as [|d a IH]; simpl; [reflexivity|].
  destruct (ascii_dec d d) as [_|n]; [exact IH | contradiction n; reflexivity].
Qed.

Lemma prefix_dir_eq (ud ud' t : string) :
  str_has "/" ud = false -> str_has "/" ud' = false ->
  String.prefix (ud ++ "/") (ud' ++ String "/" t) = true -> ud = ud'.
Proof.
  revert ud'. induction ud as [|c ud IH]; intros ud' H1 H2 Hp; destruct ud' as [|d ud'].
  - reflexivity.
  - cbn [str_has] in H2. apply orb_false_iff in H2 as [Hd _].
    apply Ascii.eqb_neq in Hd. cbn [append String.prefix] in Hp.
    destruct (ascii_dec "/" d) as [E|_]; [contradiction (Hd E) | discriminate Hp].
  - cbn [str_has] in H1. apply orb_false_iff in H1 as [Hc _].
    apply Ascii.eqb_neq in Hc. cbn [append String.prefix] in Hp.
    destruct (ascii_dec c "/") as [E|_]; [contradiction (Hc (eq_sym E)) | discriminate Hp].
  - cbn [str_has] in H1, H2. apply orb_false_iff in H1 as [_ H1]. apply orb_false_iff in H2 as [_ H2].
    cbn [append String.prefix] in Hp.
    destruct (ascii_dec c d) as [<-|_]; [|discriminate Hp]. f_equal. exact (IH ud' H1 H2 Hp).
Qed.

Lemma delete_prefix_upload (bucket key_prefix uuid_dir : string) :
  str_has "/" bucket = false -> uuid_dir <> EmptyString -> str_has "/" uuid_dir = false ->
  delete_prefix (upload_tos_path bucket key_prefix uuid_dir) = inr (key_prefix ++ "/" ++ uuid_dir ++ "/")%string.
Proof.
  intros Hb Hn Hs. unfold delete_prefix, tos_uuid_path, upload_tos_path.
  rewrite prefix_app.
  assert (Hl : forall x, (String.length ("tos://" ++ x) - 6 = String.length x)%nat)
    by (intros x; simpl; lia).
  rewrite Hl.
  change (substring 6 ?n ("tos://" ++ ?x)) with (substring 0 n x).
  rewrite substring_0_length.
  change ("/" ++ ?x)%string with (String "/" x).
  rewrite split_once_no_sep by exact Hb.
  change (String "/" ?x) with ("/" ++ x)%string.
  rewrite !str_app_nil_r.
  rewrite <- (str_app_assoc key_prefix "/" (uuid_dir ++ "/")).
  rewrite rstrip_slash_one, rstrip_slash_stop by assumption.
  rewrite !str_app_assoc. reflexivity.
Qed.

Lemma list_loop_run (service : option string -> exn + list_page) (tok : option string)
    (ps : list list_page) :
  listing_run service tok ps ->
  forall fuel acc, (List.length ps <= fuel)%nat ->
  list_loop fuel service tok acc = Some (inr (acc ++ List.concat (map page_keys ps))).
Proof.
  induction 1 as [tok p Hs Hend | tok p t ps Hs Ht Hn Hne _ IH]; intros fuel acc Hf;
    (destruct fuel as [|fuel]; [simpl in Hf; lia|]); simpl; rewrite Hs.
  - rewrite app_nil_r. destruct Hend as [H | [H | H]]; [rewrite H; reflexivity | |];
      destruct (is_truncated p); rewrite ?H; reflexivity.
  - rewrite Ht, Hn. apply String.eqb_neq in Hne. rewrite Hne.
    rewrite IH by (simpl in Hf; lia). rewrite app_assoc. reflexivity.
Qed.

Lemma collect_keys_sound (t : string) (sign : string -> option string) (keys : list string)
    (f : FileDownloadInfo.t) :
  In f (collect_keys t sign keys) ->
  FileDownloadInfo.file_type f = t /\ In (FileDownloadInfo.object_key f) keys /\
  sign (FileDownloadInfo.object_key f) = Some (FileDownloadInfo.download_url f) /\
  FileDownloadInfo.filename f = key_filename (FileDownloadInfo.object_key f).
Proof.
  induction keys as [|k keys IH]; simpl; [tauto|].
  destruct (sign k) as [url|] eqn:Hs; simpl; [|tauto].
  intros [<- | H]; simpl.
  - auto.
  - destruct (IH H) as (H1 & H2 & H3 & H4). auto.
Qed.

Lemma collect_keys_complete (t : string) (sign : string -> option string) (keys : list string)
    (k : string) :
  (forall k', In k' keys -> sign k' <> None) -> In k keys ->
  exists f, In f (collect_keys t sign keys) /\ FileDownloadInfo.object_key f = k /\
            FileDownloadInfo.file_type f = t.
Proof.
  induction keys as [|k0 keys IH]; simpl; [tauto|]. intros Hall Hk.
  destruct (sign k0) as [url|] eqn:Hs; [|contradiction (Hall k0 (or_introl eq_refl) Hs)].
  destruct Hk as [<- | Hk].
  - eexists. split; [left; reflexivity|]. split; reflexivity.
  - destruct (IH (fun k' H => Hall k' (or_intror H)) Hk) as (f & H1 & H2 & H3).
    exists f. split; [right; exact H1 | auto].
Qed.

Lemma digit_char (d : N) : (d < 10)%N ->
  is_digit (ascii_of_N (48 + d)) = true /\ digit_val (ascii_of_N (48 + d)) = Z.of_N d.
Proof.
  intros Hd. unfold is_digit, digit_val, nat_of_ascii.
  rewrite Ascii.N_ascii_embedding by (apply (N.lt_le_trans _ (48 + 10)); [apply N.add_lt_mono_l; exact Hd | discriminate]).
  rewrite N2Nat.inj_add. change (N.to_nat 48) with 48%nat.
  assert (Hd' : (N.to_nat d < 10)%nat) by lia.
  split.
  - apply andb_true_iff. split; apply Nat.leb_le; lia.
  - rewrite Nat2Z.inj_add, <- N_nat_Z. lia.
Qed.

Lemma dec_aux_digits (fuel : nat) (n : N) (acc : string) :
  all_digits acc = true -> all_digits (dec_aux fuel n acc) = true.
Proof.
  revert n acc; induction fuel as [|f IH]; intros n acc Hacc; [exact Hacc|].
  assert (Hm : (n mod 10 < 10)%N) by (apply N.mod_lt; discriminate).
  destruct (digit_char _ Hm) as [Hd _].
  cbn [dec_aux]. destruct (N.eqb (n / 10) 0).
  - cbn [all_digits]. now rewrite Hd, Hacc.
  - apply IH. cbn [all_digits]. now rewrite Hd, Hacc.
Qed.

Lemma dec_aux_parse (fuel : nat) (n : N) (acc : string) (a : Z) :
  (N.to_nat n < fuel)%nat ->
  exists k, 0 <= k /\ parse_digits (dec_aux fuel n acc) a = parse_digits acc (a * 10 ^ k + Z.of_N n).
Proof.
  revert n acc a; induction fuel as [|f IH]; intros n acc a Hf; [lia|].
  assert (Hm : (n mod 10 < 10)%N) by (apply N.mod_lt; discriminate).
  destruct (digit_char _ Hm) as [Hd Hv].
  assert (Hdiv : Z.of_N n = 10 * Z.of_N (n / 10) + Z.of_N (n mod 10)).
  { rewrite N2Z.inj_div, N2Z.inj_mod. apply Z.div_mod. discriminate. }
  cbn [dec_aux]. destruct (N.eqb_spec (n / 10) 0) as [H0|H0].
  - exists 1. split; [lia|]. cbn [parse_digits]. rewrite Hd, Hv. f_equal.
    rewrite H0 in Hdiv. simpl in Hdiv. lia.
  - destruct (IH (n / 10)%N (String (ascii_of_N (48 + n mod 10)) acc) a) as [k [Hk0 Hk]].
    + assert (0 < Z.of_N (n / 10)) by lia.
      pose proof (N2Z.is_nonneg (n mod 10)). lia.
    + exists (k + 1). split; [lia|]. rewrite Hk. cbn [parse_digits]. rewrite Hd, Hv. f_equal.
      rewrite Z.pow_add_r by lia. lia.
Qed.

Lemma is_digit_not_space (c : ascii) : is_digit c = true -> is_space c = false.
Proof.
  unfold is_digit, is_space. intros H. apply andb_true_iff in H as [H1 H2].
  apply Nat.leb_le in H1, H2.
  destruct (Nat.leb_spec 9 (nat_of_ascii c)), (Nat.leb_spec (nat_of_ascii c) 13),
           (Nat.leb_spec 28 (nat_of_ascii c)), (Nat.leb_spec (nat_of_ascii c) 32); simpl; lia.
Qed.

Lemma all_digits_app (a b : string) : all_digits (a ++ b) = all_digits a && all_digits b.
Proof. induction a as [|c a IH]; simpl; [reflexivity|]. rewrite IH. apply andb_assoc. Qed.

Lemma all_digits_rev (s : string) : all_digits (rev_string s) = all_digits s.
Proof.
  induction s as [|c s IH]; simpl; [reflexivity|].
  rewrite all_digits_app, IH. simpl. rewrite andb_true_r. apply andb_comm.
Qed.

Lemma lstrip_digits (s : string) : all_digits s = true -> lstrip s = s.
Proof.
  destruct s as [|c s]; simpl; [reflexivity|]. intros H. apply andb_true_iff in H as [H _].
  now rewrite is_digit_not_space.
Qed.

Lemma strip_digits (s : string) : all_digits s = true -> strip s = s.
Proof.
  intros H. unfold strip. rewrite (lstrip_digits s H).
  rewrite (lstrip_digits (rev_string s)) by (rewrite all_digits_rev; exact H). apply rev_string_involutive.
Qed.

Lemma dec_aux_nonempty (fuel : nat) (n : N) (acc : string) :
  acc <> EmptyString -> dec_aux fuel n acc <> EmptyString.
Proof.
  revert n acc; induction fuel as [|f IH]; intros n acc H; [exact H|].
  cbn [dec_aux]. destruct (N.eqb (n / 10) 0); [discriminate | apply IH; discriminate].
Qed.

Lemma py_str_nat_nonempty (i : nat) : py_str_nat i <> EmptyString.
Proof.
  unfold py_str_nat. cbn [dec_aux].
  destruct (N.eqb (N.of_nat i / 10) 0); [discriminate | apply dec_aux_nonempty; discriminate].
Qed.

(** [int(str(i)) == i] *)

Lemma py_int_py_str_nat (i : nat) : py_int (py_str_nat i) = Some (Z.of_nat i).
Proof.
  assert (Hall : all_digits (py_str_nat i) = true) by (apply dec_aux_digits; reflexivity).
  assert (Hfuel : (N.to_nat (N.of_nat i) < S i)%nat) by (rewrite Nat2N.id; lia).
  destruct (dec_aux_parse (S i) (N.of_nat i) EmptyString 0 Hfuel) as [k [_ Hk]].
  fold (py_str_nat i) in Hk. cbn [parse_digits] in Hk. rewrite nat_N_Z in Hk.
  pose proof (py_str_nat_nonempty i) as Hne.
  unfold py_int. rewrite strip_digits by exact Hall.
  destruct (py_str_nat i) as [|c r] eqn:E; [contradiction Hne; reflexivity|].
  cbn [all_digits] in Hall. apply andb_true_iff in Hall as [Hc _].
  destruct (Ascii.eqb_spec c "-") as [->|_]; [discriminate Hc|].
  destruct (Ascii.eqb_spec c "+") as [->|_]; [discriminate Hc|].
  rewrite Hc, Hk. cbn [option_map]. f_equal. lia.
Qed.

Lemma dict_set_fresh (d : gop_index) (k v : Z) :
  Forall (fun e => fst e < k) d -> dict_set d k v = d ++ [(k, v)].
Proof.
  induction d as [|[k' v'] d IH]; intros H; simpl; [reflexivity|].
  inversion H as [|x l Hk Hd]; subst. simpl in Hk.
  replace (k =? k') with false by (symmetry; apply Z.eqb_neq; lia). now rewrite IH.
Qed.

Lemma StronglySorted_snoc (l : list Z) (a : Z) :
  StronglySorted Z.lt l -> Forall (fun x => x < a) l -> StronglySorted Z.lt (l ++ [a]).
Proof.
  induction l as [|x l IH]; intros Hs Hf; simpl.
  - repeat constructor.
  - inversion Hs as [|y m Hs' Hx]; subst. inversion Hf as [|y m Hxa Hf']; subst.
    constructor; [apply IH; assumption|]. apply Forall_app. split; [assumption|]. repeat constructor. exact Hxa.
Qed.

Lemma iframes_of_number_lines (lines : list string) (k : nat) (acc res : gop_index) :
  iframes_of (number_lines k lines) acc = inr res ->
  StronglySorted Z.lt (map fst acc) -> Forall (fun e => 0 <= fst e < Z.of_nat k) acc ->
  StronglySorted Z.lt (map fst res) /\
  Forall (fun e => 0 <= fst e < Z.of_nat (k + List.length lines)) res.
Proof.
  revert k acc. induction lines as [|l rest IH]; intros k acc Hi Hs Hf.
  - simpl in Hi. inversion Hi; subst. rewrite Nat.add_0_r. split; assumption.
  - cbn [number_lines iframes_of] in Hi. rewrite split_numbered_line in Hi.
    cbn [nth_error nth] in Hi.
    replace (k + List.length (l :: rest))%nat with (S k + List.length rest)%nat by (simpl; lia).
    destruct (split_on "," l) as [|a [|t parts]]; try discriminate Hi.
    cbn [nth] in Hi.
    destruct (String.eqb t "I").
    + rewrite py_int_py_str_nat in Hi.
      destruct (py_int a) as [v|]; [|discriminate Hi].
      rewrite dict_set_fresh in Hi.
      * apply (IH (S k) _ Hi).
        -- rewrite map_app. apply StronglySorted_snoc; [exact Hs|].
           rewrite Forall_map. eapply Forall_impl; [|exact Hf]. simpl. intros e He. cbv beta in *. lia.
        -- apply Forall_app. split; [eapply Forall_impl; [|exact Hf]; intros e He; cbv beta in *; lia|].
           repeat constructor; simpl; lia.
      * eapply Forall_impl; [|exact Hf]. intros e He. cbv beta in *. lia.
    + apply (IH (S k) _ Hi Hs). eapply Forall_impl; [|exact Hf]. intros e He. cbv beta in *. lia.
Qed.

(* ------------------------------------------------------------------ *)
(** ** Facts about the semaphore *)



Lemma holding_count_app_waiting (l : list phase) :
  holding_count (l ++ [Waiting])%list = holding_count l.
Proof. unfold holding_count. now rewrite filter_app, app_nil_r. Qed.

Lemma holding_count_set_nth (l : list phase) (i : nat) (p x : phase) :
  nth_error l i = Some p ->
  holding_count (set_nth l i x) + holding_bit p = holding_count l + holding_bit x.
Proof.
  unfold holding_count, holding_bit.
  revert i; induction l as [|y rest IH]; intros i Hi; [destruct i; discriminate|].
  destruct i as [|j]; simpl in Hi |- *.
  - inversion Hi; subst y.
    destruct (is_holding p), (is_holding x); simpl List.length; lia.
  - specialize (IH j Hi). destruct (is_holding y); simpl List.length; lia.
Qed.

Lemma max_workers_pos (c : option Z) : 1 <= max_workers c.
Proof. unfold max_workers. lia. Qed.

Lemma reachable_invariant (c : option Z) (s : sched) :
  reachable c s -> sem_value s + holding_count (tasks s) = max_workers c /\ 0 <= sem_value s.
Proof.
  induction 1 as [|s s' _ [IHe IHp] Hstep].
  - simpl. pose proof (max_workers_pos c). unfold holding_count. simpl. lia.
  - destruct Hstep as [s|s i n Hi Hpos|s i n Hi|s i n Hi]; simpl.
    + rewrite holding_count_app_waiting. lia.
    + pose proof (holding_count_set_nth _ i _ (Holding n) Hi) as H.
      unfold holding_bit in H. simpl in H. lia.
    + pose proof (holding_count_set_nth _ i _ (Holding n) Hi) as H.
      unfold holding_bit in H. simpl in H. lia.
    + pose proof (holding_count_set_nth _ i _ Finished Hi) as H.
      unfold holding_bit in H. simpl in H. lia.
Qed.

(* ================================================================== *)
(** * The claims *)

(* ------------------------------------------------------------------ *)
(** ** Header Builder *)

(** C1 (as stated, refuted): with a frame count of [2^32] the 4-byte field
    overflows, [add_header] raises [OverflowError] after the magic, the
    header size and the entry count, and neither the frame count nor the
    table nor the payload is written. *)
Lemma C1_frame_count_overflow :
  run_file (add_header [1; 2; 3] (Some []) (Some (2 ^ 32)))
  = (magic ++ [20; 0; 0; 0] ++ [0; 0; 0; 0], inl OverflowError).
Proof. vm_compute. reflexivity. Qed.

(** C1 (amended): when every frame index and the frame count fit in 4 bytes,
    the header size [8 + 4 + 4 + 4 + entry_count * 12] fits in 4 bytes and
    every offset plus that header size fits in 8 bytes, [add_header] writes
    the magic, the header size, the entry count, the frame count and one
    12-byte entry per index pair in the dict's order, then the payload; the
    reader of the format decodes the header size field as that value and
    every table offset as the scanner's offset plus the same header size.
    Otherwise some field, taken in the order of writing, is the first one
    [int.to_bytes] cannot convert: [add_header] raises [OverflowError] there,
    and the file holds the magic followed by exactly the fields before it. *)
Theorem add_header_writes_indexed_ts (P : list Z) (idx : gop_index) (nf : Z) :
  (header_fits idx nf ->
   header_size_of idx = 8 + 4 + 4 + 4 + Z.of_nat (List.length idx) * 12 /\
   run_file (add_header P (Some idx) (Some nf))
   = (magic ++ le_bytes 4 (header_size_of idx) ++ le_bytes 4 (Z.of_nat (List.length idx))
            ++ le_bytes 4 nf ++ List.concat (map (entry_bytes (header_size_of idx)) idx)
            ++ P, inr tt) /\
   read_indexed_ts (header_bytes idx nf ++ P)
   = Some (magic, header_size_of idx, Z.of_nat (List.length idx), nf,
           map (fun e => (fst e, snd e + header_size_of idx)) idx, P)) /\
  (~ header_fits idx nf ->
   exists j f, nth_error (header_fields idx nf) j = Some f /\ field_fits f = false /\
     forallb field_fits (firstn j (header_fields idx nf)) = true /\
     run_file (add_header P (Some idx) (Some nf))
     = (magic ++ List.concat (map field_bytes (firstn j (header_fields idx nf))), inl OverflowError)).
Proof.
  split.
  - intros H. split; [reflexivity|]. split.
    + rewrite add_header_layout by exact H. unfold header_bytes. now rewrite <- !app_assoc.
    + now apply read_header_bytes.
  - intros H.
    assert (Hf : forallb field_fits (header_fields idx nf) = false).
    { destruct (forallb field_fits (header_fields idx nf)) eqn:E; [|reflexivity].
      exfalso. exact (H (fields_fit_header_fits idx nf E)). }
    unfold run_file. rewrite add_header_fields. exact (write_fields_then_overflow _ (fwrite P) _ Hf).
Qed.

Lemma add_header_writes_indexed_ts_witness :
  header_fits [(0, 0); (30, 188)] 60 /\
  header_size_of [(0, 0); (30, 188)] = 8 + 4 + 4 + 4 + 2 * 12 /\
  run_file (add_header [7; 9] (Some [(0, 0); (30, 188)]) (Some 60))
  = (magic ++ le_bytes 4 44 ++ le_bytes 4 2 ++ le_bytes 4 60
           ++ List.concat (map (entry_bytes 44) [(0, 0); (30, 188)]) ++ [7; 9], inr tt) /\
  read_indexed_ts (header_bytes [(0, 0); (30, 188)] 60 ++ [7; 9])
  = Some (magic, 44, 2, 60, [(0, 44); (30, 232)], [7; 9]) /\
  ~ header_fits [(0, 0); (2 ^ 32, 188)] 60 /\
  exists j f, nth_error (header_fields [(0, 0); (2 ^ 32, 188)] 60) j = Some f /\
    field_fits f = false /\
    forallb field_fits (firstn j (header_fields [(0, 0); (2 ^ 32, 188)] 60)) = true /\
    run_file (add_header [7; 9] (Some [(0, 0); (2 ^ 32, 188)]) (Some 60))
    = (magic ++ List.concat (map field_bytes (firstn j (header_fields [(0, 0); (2 ^ 32, 188)] 60))),
       inl OverflowError).
Proof.
  assert (H : header_fits [(0, 0); (30, 188)] 60).
  { unfold header_fits, entry_fits, header_size_of; simpl.
    repeat split; repeat constructor; simpl; lia. }
  assert (H' : ~ header_fits [(0, 0); (2 ^ 32, 188)] 60).
  { unfold header_fits. intros [Hall _]. inversion Hall as [|? ? _ Hrest]. subst.
    inversion Hrest as [|? ? Hb _]. subst. unfold entry_fits in Hb. simpl in Hb. lia. }
  split; [exact H|].
  destruct (add_header_writes_indexed_ts [7; 9] [(0, 0); (30, 188)] 60) as [Hok _].
  destruct (Hok H) as (H1 & H2 & H3).
  split; [exact H1|]. split; [exact H2|]. split; [exact H3|]. split; [exact H'|].
  destruct (add_header_writes_indexed_ts [7; 9] [(0, 0); (2 ^ 32, 188)] 60) as [_ Hbad].
  exact (Hbad H').
Defined.

(** C5 (as stated, refuted): with the empty index and a frame count of [2^32],
    [add_header] raises [OverflowError], so no file that reads back as
    (magic, 20, 0, frame count, P) is produced. *)
Lemma C5_frame_count_overflow :
  ~ (forall (P : list Z) (nf : Z),
       exists out, run_file (add_header P (Some []) (Some nf)) = (out, inr tt) /\
                   read_indexed_ts out = Some (magic, 20, 0, nf, [], P)).
Proof.
  intros H. destruct (H [] (2 ^ 32)) as [out [Hrun _]].
  vm_compute in Hrun. discriminate Hrun.
Qed.

(** C5 (amended): for every payload [P] and every frame count in
    [[0, 2^32)], building from the empty index succeeds and reading the
    result back gives the magic, header size 20, entry count 0, the frame
    count, an empty table and exactly [P]; a frame count outside that range
    (negative, or [2^32] or more) makes [add_header] raise [OverflowError]
    after writing the magic, the header size 20 and the entry count 0. *)
Theorem add_header_empty_roundtrip (P : list Z) (nf : Z) :
  (0 <= nf < 2 ^ 32 ->
   exists out, run_file (add_header P (Some []) (Some nf)) = (out, inr tt) /\
               read_indexed_ts out = Some (magic, 20, 0, nf, [], P)) /\
  (~ (0 <= nf < 2 ^ 32) ->
   run_file (add_header P (Some []) (Some nf))
   = (magic ++ le_bytes 4 20 ++ le_bytes 4 0, inl OverflowError)).
Proof.
  split.
  - intros Hnf.
    assert (H : header_fits [] nf)
      by (unfold header_fits, header_size_of; simpl; repeat split; auto; lia).
    exists (header_bytes [] nf ++ P). split.
    + now apply add_header_layout.
    + now rewrite read_header_bytes by exact H.
  - intros Hnf. unfold run_file. rewrite add_header_fields.
    cbn [header_fields flat_map write_fields_then fst snd app].
    rewrite (fbind_inr _ _ _ _ _ (to_bytes_ok (header_size_of []) 4 ([] ++ magic) ltac:(unfold header_size_of; simpl; lia))).
    rewrite fbind_fwrite.
    rewrite (fbind_inr _ _ _ _ _ (to_bytes_ok (Z.of_nat (List.length (@nil (Z * Z)))) 4 _ ltac:(unfold header_size_of; simpl; lia))).
    rewrite fbind_fwrite.
    rewrite (fbind_inl _ _ _ _ _ (to_bytes_overflow nf 4 _ Hnf)).
    reflexivity.
Qed.

Lemma add_header_empty_roundtrip_witness :
  0 <= 1800 < 2 ^ 32 /\
  (exists out, run_file (add_header [71; 0; 17] (Some []) (Some 1800)) = (out, inr tt) /\
               read_indexed_ts out = Some (magic, 20, 0, 1800, [], [71; 0; 17])) /\
  ~ (0 <= 2 ^ 32 < 2 ^ 32) /\
  run_file (add_header [71; 0; 17] (Some []) (Some (2 ^ 32)))
  = (magic ++ le_bytes 4 20 ++ le_bytes 4 0, inl OverflowError).
Proof.
  split; [lia|]. split; [apply (add_header_empty_roundtrip [71; 0; 17] 1800); lia|].
  split; [lia|]. apply (add_header_empty_roundtrip [71; 0; 17] (2 ^ 32)). lia.
Defined.

(** C10 (as stated, refuted): the index [(0, 0), ..., (357913939, 0)] has
    distinct frame indices below [2^32], its offsets plus the header size
    [4294967300] fit in 8 bytes and the frame count 0 fits in 4 bytes, yet
    the header size itself does not fit its 4-byte field: [add_header]
    raises [OverflowError] after writing only the magic. *)
Lemma C10_header_size_overflow :
  ~ (forall (idx : gop_index) (nf : Z) (P : list Z),
       NoDup (map fst idx) ->
       Forall (fun e => 0 <= fst e < 2 ^ 32) idx ->
       0 <= nf < 2 ^ 32 ->
       Forall (fun e => 0 <= snd e + header_size_of idx < 2 ^ 64) idx ->
       exists out, run_file (add_header P (Some idx) (Some nf)) = (out, inr tt) /\
         List.length out = (Z.to_nat (8 + 4 + 4 + 4 + 12 * Z.of_nat (List.length idx))
                            + List.length P)%nat).
Proof.
  intros H.
  assert (Hlen : header_size_of (gop_range 357913940) = 4294967300)
    by (unfold header_size_of; rewrite length_gop_range; reflexivity).
  destruct (H (gop_range 357913940) 0 [] (gop_range_keys_nodup _)) as [out [Hrun _]].
  - eapply Forall_impl; [|apply gop_range_bounds]. simpl. intros e [? ?]; lia.
  - lia.
  - eapply Forall_impl; [|apply gop_range_bounds]. rewrite Hlen. simpl. intros e [? ->]; lia.
  - rewrite add_header_header_overflow in Hrun by (rewrite Hlen; lia). discriminate Hrun.
Qed.

(** C10 (amended): when the frame indices and the frame count fit in 4
    bytes, the offsets plus the header size fit in 8 bytes and the header
    size [8 + 4 + 4 + 4 + 12 * entry_count] fits in 4 bytes, [add_header]
    succeeds and the file is the header followed by the unmodified payload,
    of total length header size plus [length P]. *)
Theorem add_header_output_length (idx : gop_index) (nf : Z) (P : list Z) :
  header_fits idx nf ->
  exists out, run_file (add_header P (Some idx) (Some nf)) = (out, inr tt) /\
    out = header_bytes idx nf ++ P /\
    List.length out = (Z.to_nat (8 + 4 + 4 + 4 + 12 * Z.of_nat (List.length idx))
                       + List.length P)%nat.
Proof.
  intros H. exists (header_bytes idx nf ++ P). split; [now apply add_header_layout|].
  split; [reflexivity|].
  rewrite length_app, length_header_bytes. unfold header_size_of. f_equal. f_equal. lia.
Qed.

Lemma add_header_output_length_witness :
  header_fits [(0, 0); (30, 188)] 60 /\
  exists out, run_file (add_header [7; 9] (Some [(0, 0); (30, 188)]) (Some 60)) = (out, inr tt) /\
    out = header_bytes [(0, 0); (30, 188)] 60 ++ [7; 9] /\
    List.length out = (Z.to_nat (8 + 4 + 4 + 4 + 12 * 2) + 2)%nat.
Proof.
  assert (H : header_fits [(0, 0); (30, 188)] 60).
  { unfold header_fits, entry_fits, header_size_of; simpl.
    repeat split; repeat constructor; simpl; lia. }
  split; [exact H|].
  exact (add_header_output_length [(0, 0); (30, 188)] 60 [7; 9] H).
Defined.

(* ------------------------------------------------------------------ *)
(** ** GOP Index Scanner *)

(** C2 (code defect): [get_gop_offsets] has no path that raises [ScanError].
    Whether or not the source file exists (it is only logged), a non-zero
    exit of the frame-analysis invocation, or one non-blank output line it
    cannot parse, makes it return [(None, None)], against its annotation
    [tuple[dict[int, int], int]]; [add_index_header_to_video_file] does not
    check for that and goes on into [add_header], which opens the output
    file, writes the magic and then raises [TypeError] on [len(None)]. *)
Theorem add_index_header_proceeds_on_failure (ex : bool) (rc : Z) (out line : string) (P : list Z) :
  (rc <> 0 ->
   get_gop_offsets ex (Completed rc out) = inr (None, None) /\
   add_index_header_to_video_file P ex (Completed rc out) = (Some magic, inl TypeError)) /\
  (In line (frame_lines out) -> ffprobe_line_unparseable line = true ->
   get_gop_offsets ex (Completed 0 out) = inr (None, None) /\
   add_index_header_to_video_file P ex (Completed 0 out) = (Some magic, inl TypeError)).
Proof.
  assert (Hnone : get_gop_offsets ex (Completed rc out) = inr (None, None) ->
                  add_index_header_to_video_file P ex (Completed rc out) = (Some magic, inl TypeError))
    by (intros E; unfold add_index_header_to_video_file; rewrite E; reflexivity).
  assert (Hnone0 : get_gop_offsets ex (Completed 0 out) = inr (None, None) ->
                   add_index_header_to_video_file P ex (Completed 0 out) = (Some magic, inl TypeError))
    by (intros E; unfold add_index_header_to_video_file; rewrite E; reflexivity).
  split.
  - intros Hrc.
    assert (E : get_gop_offsets ex (Completed rc out) = inr (None, None)).
    { unfold get_gop_offsets.
      replace (negb (rc =? 0)) with true by (symmetry; apply negb_true_iff, Z.eqb_neq; exact Hrc).
      reflexivity. }
    split; [exact E | exact (Hnone E)].
  - intros Hin Hbad.
    assert (E : get_gop_offsets ex (Completed 0 out) = inr (None, None)).
    { unfold get_gop_offsets. simpl negb. cbv iota.
      destruct (in_number_lines 0 _ _ Hin) as [i Hi].
      destruct (iframes_of_unparseable _ [] i line Hi Hbad) as [e ->].
      reflexivity. }
    split; [exact E | exact (Hnone0 E)].
Qed.

Lemma add_index_header_proceeds_on_failure_witness :
  (1 <> 0 /\
   get_gop_offsets false (Completed 1 EmptyString) = inr (None, None) /\
   add_index_header_to_video_file [1; 2] false (Completed 1 EmptyString) = (Some magic, inl TypeError)) /\
  (In "N/A,I"%string (frame_lines "N/A,I"%string) /\
   ffprobe_line_unparseable "N/A,I"%string = true /\
   get_gop_offsets true (Completed 0 "N/A,I"%string) = inr (None, None) /\
   add_index_header_to_video_file [1; 2] true (Completed 0 "N/A,I"%string)
   = (Some magic, inl TypeError)).
Proof.
  destruct (add_index_header_proceeds_on_failure false 1 EmptyString EmptyString [1; 2]) as [H1 _].
  destruct (add_index_header_proceeds_on_failure true 0 "N/A,I"%string "N/A,I"%string [1; 2]) as [_ H2].
  assert (Hin : In "N/A,I"%string (frame_lines "N/A,I"%string)) by (vm_compute; left; reflexivity).
  assert (Hbad : ffprobe_line_unparseable "N/A,I"%string = true) by (vm_compute; reflexivity).
  split.
  - split; [lia|]. apply H1. lia.
  - split; [exact Hin|]. split; [exact Hbad|]. exact (H2 Hin Hbad).
Defined.

(* ------------------------------------------------------------------ *)
(** ** Temporary files of the Transcoder *)

(** C3 (code defect): every run of [convert_video_mp4_to_ts] whose remux
    creates [/tmp/converted.ts] (every remux that exits with status 0 does)
    writes that fixed path, so two tasks transcoding at the same time write
    the same temporary file, and the [finally] block, which only unlinks
    [input_path] and [output_path], leaves it on the host. *)
Theorem convert_video_mp4_to_ts_shared_temp (tmp_name filename : string) (rc : Z) (payload : list Z)
    (probe : proc_result) (s : fs_state) :
  In converted_ts (written (fst (convert_video_mp4_to_ts tmp_name filename rc true payload probe s))) /\
  (tmp_input_path tmp_name filename <> converted_ts -> tmp_output_path filename <> converted_ts ->
   In converted_ts (files (fst (convert_video_mp4_to_ts tmp_name filename rc true payload probe s)))).
Proof.
  rewrite convert_video_mp4_to_ts_state. cbv zeta.
  set (ip := tmp_input_path tmp_name filename).
  set (op := tmp_output_path filename).
  set (s2 := fst (convert_to_indexed_ts_file op rc true payload probe (fs_create ip s))).
  assert (W2 : In converted_ts (written s2)).
  { unfold s2, convert_to_indexed_ts_file. cbv iota zeta.
    destruct (negb (rc =? 0)); [apply written_create_same|].
    destruct (add_index_header_to_video_file _ _ _) as [[c|] r]; simpl fst;
      [apply written_create|]; apply written_create_same. }
  assert (F2 : op <> converted_ts -> In converted_ts (files s2)).
  { intros Ho. unfold s2. apply convert_to_indexed_ts_file_files; [congruence|].
    right; split; reflexivity. }
  rewrite !written_unlink_if. split; [exact W2|]. intros Hi Ho.
  apply in_files_unlink_if. split; [congruence|].
  apply in_files_unlink_if. split; [congruence|]. exact (F2 Ho).
Qed.

Lemma convert_video_mp4_to_ts_shared_temp_witness :
  tmp_input_path "tmpk3j2x9a1"%string "cam_a.mp4"%string <> converted_ts /\
  tmp_output_path "cam_a.mp4"%string <> converted_ts /\
  In converted_ts (written (fst (convert_video_mp4_to_ts "tmpk3j2x9a1"%string "cam_a.mp4"%string 0 true [71]
                                    (Completed 0 "0,I"%string) {| files := []; written := [] |}))) /\
  In converted_ts (files (fst (convert_video_mp4_to_ts "tmpk3j2x9a1"%string "cam_a.mp4"%string 0 true [71]
                                 (Completed 0 "0,I"%string) {| files := []; written := [] |}))).
Proof.
  assert (Hi : tmp_input_path "tmpk3j2x9a1"%string "cam_a.mp4"%string <> converted_ts)
    by (vm_compute; discriminate).
  assert (Ho : tmp_output_path "cam_a.mp4"%string <> converted_ts) by (vm_compute; discriminate).
  destruct (convert_video_mp4_to_ts_shared_temp "tmpk3j2x9a1"%string "cam_a.mp4"%string 0 [71]
              (Completed 0 "0,I"%string) {| files := []; written := [] |}) as [HW HF].
  split; [exact Hi|]. split; [exact Ho|]. split; [exact HW | exact (HF Hi Ho)].
Defined.

(* ------------------------------------------------------------------ *)
(** ** Batch status *)

(** C4 (as stated, refuted): the status of a batch is not immutable once
    terminal, nor limited to the three values: its owner can call
    [mark_video_ready] on a [failed] batch, which becomes [ready] with no
    group having run, and [create_video] stores any status string. *)
Lemma C4_terminal_status_rewritten :
  mark_video_ready (Some {| owner_id := 1; status := "failed" |}) 1
  = inr {| owner_id := 1; status := "ready" |} /\
  mark_video_failed (Some {| owner_id := 1; status := "ready" |}) 1
  = inr {| owner_id := 1; status := "failed" |} /\
  status (create_video "archived" 1) = "archived"%string.
Proof. split; [|split]; reflexivity. Qed.

(** C4 (amended): [upload_video] writes only [uploading], [ready] and
    [failed], starting with [uploading].  It commits [ready] exactly when
    the video group, the background group and the calibration step
    (extension check and upload) all succeed; it ends in [ready], returning
    normally, exactly when moreover the reads of the committed row for the
    response succeed, and otherwise ends in [failed] with a 500 (after
    [ready] when only those reads failed).  The status is not frozen once
    terminal: the owner-only endpoints [mark_video_ready] and
    [mark_video_failed] overwrite any status, and [create_video] stores
    whatever status it is given. *)
Theorem upload_video_status (E : env) (key_prefix uuid_dir : string)
    (videos backgrounds : list upload_file) (calibration : upload_file) :
  let u := upload_video E key_prefix uuid_dir videos backgrounds calibration in
  let steps_ok :=
    snd (video_group E key_prefix uuid_dir videos) = true /\
    snd (background_group E key_prefix uuid_dir backgrounds) = true /\
    calibration_ext_ok calibration = true /\
    upload_ok E (calibration_key key_prefix uuid_dir) = true in
  hd_error (statuses u) = Some "uploading"%string /\
  Forall (fun st => st = "uploading"%string \/ st = "ready"%string \/ st = "failed"%string)
         (statuses u) /\
  (In "ready"%string (statuses u) <-> steps_ok) /\
  (final_status u = "ready"%string <-> steps_ok /\ respond_ok E = true) /\
  (final_status u = "ready"%string -> outcome u = inr tt) /\
  (final_status u <> "ready"%string ->
     final_status u = "failed"%string /\ outcome u = inl (HTTPException 500)) /\
  (forall (v : video) (uid : Z), owner_id v = uid ->
     mark_video_ready (Some v) uid = inr {| owner_id := uid; status := "ready" |} /\
     mark_video_failed (Some v) uid = inr {| owner_id := uid; status := "failed" |}) /\
  (forall (st : string) (uid : Z), status (create_video st uid) = st).
Proof.
  intros u steps_ok. subst u steps_ok. unfold upload_video.
  assert (Hend : forall v uid, owner_id v = uid ->
     mark_video_ready (Some v) uid = inr {| owner_id := uid; status := "ready" |} /\
     mark_video_failed (Some v) uid = inr {| owner_id := uid; status := "failed" |}).
  { intros v uid <-. unfold mark_video_ready, mark_video_failed. now rewrite Z.eqb_refl. }
  assert (Hcr : forall (st : string) (uid : Z), status (create_video st uid) = st) by reflexivity.
  destruct (video_group E key_prefix uuid_dir videos) as [tr_v [|]];
  [destruct (background_group E key_prefix uuid_dir backgrounds) as [tr_b [|]];
    [destruct (calibration_ext_ok calibration) eqn:Hc;
      [unfold upload; destruct (upload_ok E (calibration_key key_prefix uuid_dir)) eqn:Hu;
        [destruct (respond_ok E) eqn:Hr|]|]|]|].
  all: cbn [statuses final_status outcome last hd_error snd negb In] in *.
  all: split; [reflexivity|].
  all: split; [repeat (apply Forall_cons; [now (left + (right; left) + (right; right)) |]);
               apply Forall_nil|].
  all: split; [split; [intros H; repeat destruct H as [H|H]; try discriminate H; try contradiction H;
                       repeat split; reflexivity
                      | intros (H1 & H2 & H3 & H4); first [discriminate H1 | discriminate H2 |
                          discriminate H3 | discriminate H4 | tauto]]|].
  all: split; [split; [intros H; first [discriminate H | repeat split; reflexivity]
                      | intros ((H1 & H2 & H3 & H4) & H5); first [discriminate H1 | discriminate H2 |
                          discriminate H3 | discriminate H4 | discriminate H5 | reflexivity]]|].
  all: split; [intros H; first [reflexivity | discriminate H]|].
  all: split; [intros H; first [split; reflexivity | exfalso; apply H; reflexivity]|].
  all: split; [exact Hend | exact Hcr].
Qed.

(* ------------------------------------------------------------------ *)
(** ** Camera indices *)

(** C6: each group is started from its own files sorted by [filename or ""]
    (a sorted permutation of the group), and the task at position [k] of the
    sorted group gets camera index [k + 1]; so the video task and the
    background task at the same sorted position get the same index, which
    is at least 1. *)
Theorem camera_index_by_sorted_position (E : env) (key_prefix uuid_dir : string)
    (videos backgrounds : list upload_file) :
  video_group E key_prefix uuid_dir videos =
    gather (map (fun '(f, i) => process_video_file E key_prefix uuid_dir f i)
                (group_tasks videos)) /\
  background_group E key_prefix uuid_dir backgrounds =
    gather (map (fun '(f, i) => process_background_file E key_prefix uuid_dir f i)
                (group_tasks backgrounds)) /\
  Sorted name_le (sort_by_name videos) /\ Permutation videos (sort_by_name videos) /\
  Sorted name_le (sort_by_name backgrounds) /\
  Permutation backgrounds (sort_by_name backgrounds) /\
  (forall k f i, nth_error (group_tasks videos) k = Some (f, i) <->
                 nth_error (sort_by_name videos) k = Some f /\ i = S k) /\
  (forall k f i, nth_error (group_tasks backgrounds) k = Some (f, i) <->
                 nth_error (sort_by_name backgrounds) k = Some f /\ i = S k) /\
  (forall k fv iv fb ib, nth_error (group_tasks videos) k = Some (fv, iv) ->
     nth_error (group_tasks backgrounds) k = Some (fb, ib) -> iv = ib /\ (1 <= iv)%nat).
Proof.
  split; [reflexivity|]. split; [reflexivity|].
  split; [apply sort_by_name_sorted|]. split; [apply sort_by_name_perm|].
  split; [apply sort_by_name_sorted|]. split; [apply sort_by_name_perm|].
  split; [intros; apply group_tasks_nth|]. split; [intros; apply group_tasks_nth|].
  intros k fv iv fb ib Hv Hb.
  apply group_tasks_nth in Hv as [_ ->]. apply group_tasks_nth in Hb as [_ ->].
  split; [reflexivity | lia].
Qed.

(* ------------------------------------------------------------------ *)
(** ** Unsupported video formats *)

(** C7: a video whose (non-empty) file name has a lower-cased suffix other
    than [.mp4] and [.ts] makes its task raise the [ValueError] of an
    unsupported format with no converter started for it, whatever its
    index; and when that file is in the video group the batch ends in
    [failed] with a 500. *)
Theorem unsupported_video_fails_early (E : env) (key_prefix uuid_dir : string)
    (videos backgrounds : list upload_file) (calibration f : upload_file) (name : string) :
  In f videos -> filename f = Some name -> name <> EmptyString ->
  py_lower (py_suffix name) <> ".mp4"%string -> py_lower (py_suffix name) <> ".ts"%string ->
  (forall i, process_video_file E key_prefix uuid_dir f i =
             ([], inl (unsupported_video (py_lower (py_suffix name))))) /\
  final_status (upload_video E key_prefix uuid_dir videos backgrounds calibration)
    = "failed"%string /\
  outcome (upload_video E key_prefix uuid_dir videos backgrounds calibration)
    = inl (HTTPException 500).
Proof.
  intros Hin Hname Hne Hmp4 Hts.
  assert (Hp : forall i, process_video_file E key_prefix uuid_dir f i =
             ([], inl (unsupported_video (py_lower (py_suffix name))))).
  { intros i. unfold process_video_file, str_or. rewrite Hname.
    apply String.eqb_neq in Hne, Hmp4, Hts. rewrite Hne, Hmp4, Hts. reflexivity. }
  split; [exact Hp|].
  assert (Hs : In f (sort_by_name videos)) by (eapply Permutation_in; [apply sort_by_name_perm | exact Hin]).
  destruct (in_number_from 1 _ _ Hs) as [i Hi].
  assert (Hg : snd (video_group E key_prefix uuid_dir videos) = false).
  { unfold video_group.
    apply (gather_fails _ (process_video_file E key_prefix uuid_dir f i)
             (unsupported_video (py_lower (py_suffix name)))); [|now rewrite Hp].
    apply in_map_iff. exists (f, i). split; [reflexivity | exact Hi]. }
  unfold upload_video.
  destruct (video_group E key_prefix uuid_dir videos) as [tr_v ok_v].
  simpl in Hg. subst ok_v. split; reflexivity.
Qed.

Lemma unsupported_video_fails_early_witness :
  let E := {| transcode := fun d _ => inr d; extract := fun d _ => inr d;
              upload_ok := fun _ => true; respond_ok := true |} in
  let avi := {| filename := Some "cam_a.avi"%string; data := [1] |} in
  let cal := {| filename := Some "calibration.json"%string; data := [] |} in
  (In avi [avi] /\ filename avi = Some "cam_a.avi"%string /\ "cam_a.avi"%string <> EmptyString /\
   py_lower (py_suffix "cam_a.avi") <> ".mp4"%string /\
   py_lower (py_suffix "cam_a.avi") <> ".ts"%string) /\
  final_status (upload_video E "videos"%string "u1"%string [avi] [] cal) = "failed"%string.
Proof.
  intros E avi cal.
  assert (H1 : In avi [avi]) by (left; reflexivity).
  assert (H2 : filename avi = Some "cam_a.avi"%string) by reflexivity.
  assert (H3 : "cam_a.avi"%string <> EmptyString) by discriminate.
  assert (H4 : py_lower (py_suffix "cam_a.avi") <> ".mp4"%string) by (vm_compute; discriminate).
  assert (H5 : py_lower (py_suffix "cam_a.avi") <> ".ts"%string) by (vm_compute; discriminate).
  split; [repeat split; assumption|].
  exact (proj1 (proj2 (unsupported_video_fails_early E "videos"%string "u1"%string [avi] [] cal
                         avi "cam_a.avi"%string H1 H2 H3 H4 H5))).
Defined.

(* ------------------------------------------------------------------ *)
(** ** Delete by prefix *)

(** C8 (as stated, refuted): with eleven keys that all fail to delete, the
    aggregate error lists only the first ten; the eleventh key, [zzz],
    appears nowhere in its message. *)
Lemma C8_eleventh_failure_unnamed :
  match snd (delete_tos_objects_by_prefix
               (inr ["a"; "b"; "c"; "d"; "e"; "f"; "g"; "h"; "i"; "j"; "zzz"]%string)
               (fun _ => false)) with
  | inl (RuntimeError msg) => contains "zzz"%string msg = false
  | _ => False
  end.
Proof. vm_compute. reflexivity. Qed.

(** C8 (amended): delete-by-prefix attempts every listed key, in order, with
    no stop at a failure; it succeeds exactly when no deletion failed, and
    otherwise raises one [RuntimeError] whose message gives the counts and
    names (by [repr]) the first ten failed keys, in order. *)
Theorem delete_by_prefix_attempts_all (object_keys : list string) (delete_ok : string -> bool) :
  let r := delete_tos_objects_by_prefix (inr object_keys) delete_ok in
  let failed := filter (fun k => negb (delete_ok k)) object_keys in
  fst r = object_keys /\
  (snd r = inr tt <-> forall k, In k object_keys -> delete_ok k = true) /\
  (failed <> [] ->
   snd r = inl (RuntimeError (delete_failure_message failed object_keys)) /\
   forall k, In k (firstn 10 failed) ->
     exists pre suf, delete_failure_message failed object_keys = (pre ++ py_repr_str k ++ suf)%string).
Proof.
  intros r failed. subst r failed.
  unfold delete_tos_objects_by_prefix. rewrite delete_loop_eq, !app_nil_l.
  set (failed := filter (fun k => negb (delete_ok k)) object_keys).
  cbv beta iota.
  assert (Hf : failed = [] <-> forall k, In k object_keys -> delete_ok k = true).
  { unfold failed. split.
    - intros H k Hk. destruct (delete_ok k) eqn:Ek; [reflexivity|].
      assert (In k (filter (fun k => negb (delete_ok k)) object_keys)) as Hin
        by (apply filter_In; rewrite Ek; auto).
      rewrite H in Hin. destruct Hin.
    - intros H. destruct (filter (fun k => negb (delete_ok k)) object_keys) as [|k ks] eqn:Ef;
        [reflexivity|].
      assert (Hk : In k (filter (fun k => negb (delete_ok k)) object_keys))
        by (rewrite Ef; left; auto).
      apply filter_In in Hk as [Hk Hn]. rewrite H in Hn by exact Hk. discriminate. }
  clearbody failed.
  split; [reflexivity|]. split.
  - rewrite <- Hf. destruct failed as [|k0 ks]; cbn [snd]; split; congruence.
  - intros Hne. split; [destruct failed; [congruence | reflexivity]|].
    intros k Hk. change (infix (py_repr_str k) (delete_failure_message failed object_keys)).
    unfold delete_failure_message.
    do 6 apply infix_app_l. apply infix_app_r. unfold py_list_repr.
    apply infix_app_l, infix_app_r. apply join_in. now apply in_map.
Qed.

(* ------------------------------------------------------------------ *)
(** ** Concurrency cap *)

(** C9: in every interleaving of the tasks of both groups, the number of
    tasks inside [async with semaphore] never exceeds [max_workers], that
    is [max(1, int(cpu_count * 0.8))]. *)
Theorem in_flight_capped (c : option Z) (s : sched) :
  reachable c s -> Z.of_nat (in_flight s) <= max_workers c.
Proof.
  intros Hr. destruct (reachable_invariant c s Hr) as [He Hp].
  unfold in_flight. unfold holding_count in He. lia.
Qed.

Lemma in_flight_capped_witness :
  let s1 := {| sem_value := max_workers (Some 5) - 1; tasks := set_nth [Waiting] 0 (Holding 2) |} in
  reachable (Some 5) s1 /\ Z.of_nat (in_flight s1) <= max_workers (Some 5).
Proof.
  intros s1.
  assert (Hs0 : reachable (Some 5)
                  {| sem_value := max_workers (Some 5); tasks := ([] ++ [Waiting])%list |}).
  { apply (reach_step _ (sched_init (Some 5))); [apply reach_init | apply step_spawn]. }
  assert (Hr : reachable (Some 5) s1).
  { apply (reach_step _ _ _ Hs0).
    apply (step_acquire {| sem_value := max_workers (Some 5); tasks := ([] ++ [Waiting])%list |} 0 2);
      [reflexivity | vm_compute; reflexivity]. }
  split; [exact Hr | exact (in_flight_capped (Some 5) s1 Hr)].
Defined.

(* ================================================================== *)
(** * Further properties of the code *)

(** Extra (Transcoder temporary files): after [convert_video_mp4_to_ts],
    whatever its outcome, neither [input_path] nor [output_path] is on the
    host; every other path is present exactly when it was before the call,
    or it is [/tmp/converted.ts] and the remux created it (whether or not
    the remux then exited with status 0). *)
Theorem convert_video_mp4_to_ts_temp_files (tmp_name filename : string) (ffmpeg_rc : Z)
    (created : bool) (payload : list Z) (probe : proc_result) (s : fs_state) :
  let s' := fst (convert_video_mp4_to_ts tmp_name filename ffmpeg_rc created payload probe s) in
  ~ In (tmp_input_path tmp_name filename) (files s') /\
  ~ In (tmp_output_path filename) (files s') /\
  (forall p, p <> tmp_input_path tmp_name filename -> p <> tmp_output_path filename ->
     (In p (files s') <-> In p (files s) \/ (p = converted_ts /\ created = true))).
Proof.
  intros s'. subst s'. rewrite convert_video_mp4_to_ts_state. cbv zeta.
  set (ip := tmp_input_path tmp_name filename). set (op := tmp_output_path filename).
  pose proof (convert_to_indexed_ts_file_files op ffmpeg_rc created payload probe (fs_create ip s)) as Hc.
  set (s2 := fst (convert_to_indexed_ts_file op ffmpeg_rc created payload probe (fs_create ip s))) in *.
  rewrite !in_files_unlink_if.
  split; [tauto|]. split; [tauto|]. intros p Hi Ho.
  rewrite !in_files_unlink_if, (Hc p Ho), in_files_create. intuition congruence.
Qed.


(** Extra (background converter): [convert_background_mp4_to_png] leaves no
    temporary file behind and returns [(png, stem + ".png")] exactly when the
    frame extraction succeeded with that PNG. *)
Theorem convert_background_mp4_to_png_spec (tmp_name filename : string) (ff : ffmpeg_run)
    (s : fs_state) :
  let ip := tmp_input_path tmp_name filename in
  let res := convert_background_mp4_to_png tmp_name filename ff s in
  (forall p, In p (files (fst res)) <-> In p (files s) /\ p <> ip /\ p <> (ip ++ ".png")%string) /\
  (forall png name, snd res = inr (png, name) <->
     ff = FfExit 0 (Some png) /\ name = (py_stem filename ++ ".png")%string).
Proof.
  intros ip res. subst res. unfold convert_background_mp4_to_png.
  pose proof (extract_frame_outcome tmp_name filename ff s) as [Hf Hr].
  destruct (extract_frame_from_video_data tmp_name filename ff s) as [s' r]. simpl in Hf, Hr |- *.
  split; [exact Hf|]. intros png name. destruct r as [e|png'].
  - split; [intros H; discriminate H|]. intros [H _]. apply Hr in H. discriminate H.
  - split.
    + intros H. inversion H; subst. split; [apply Hr; reflexivity | reflexivity].
    + intros [H ->]. apply Hr in H. inversion H; reflexivity.
Qed.

(** Extra (header writer on a failed scan): when the ffprobe run exits with
    a non-zero status, or one of its non-blank output lines cannot be
    parsed, [add_index_header_to_video_file] opens the output file, writes
    the 8 magic bytes and then fails with [TypeError], whatever the input
    payload. *)
Theorem add_index_header_failed_scan (payload : list Z) (ex : bool) (rc : Z) (out line : string) :
  (rc <> 0 -> add_index_header_to_video_file payload ex (Completed rc out) = (Some magic, inl TypeError)) /\
  (In line (frame_lines out) -> ffprobe_line_unparseable line = true ->
   add_index_header_to_video_file payload ex (Completed 0 out) = (Some magic, inl TypeError)).
Proof.
  split.
  - intros Hrc. unfold add_index_header_to_video_file, get_gop_offsets.
    replace (negb (rc =? 0)) with true by (symmetry; apply negb_true_iff, Z.eqb_neq; exact Hrc).
    reflexivity.
  - intros Hin Hbad. unfold add_index_header_to_video_file, get_gop_offsets. simpl negb. cbv iota.
    destruct (in_number_lines 0 _ _ Hin) as [i Hi].
    destruct (iframes_of_unparseable _ [] i line Hi Hbad) as [e ->].
    reflexivity.
Qed.

Lemma add_index_header_failed_scan_witness :
  (1 <> 0 /\ add_index_header_to_video_file [7; 7] true (Completed 1 "x"%string) = (Some magic, inl TypeError)) /\
  (In "N/A,I"%string (frame_lines "N/A,I"%string) /\ ffprobe_line_unparseable "N/A,I"%string = true /\
   add_index_header_to_video_file [7; 7] true (Completed 0 "N/A,I"%string) = (Some magic, inl TypeError)).
Proof.
  destruct (add_index_header_failed_scan [7; 7] true 1 "x"%string "x"%string) as [H1 _].
  destruct (add_index_header_failed_scan [7; 7] true 0 "N/A,I"%string "N/A,I"%string) as [_ H2].
  split; [split; [lia | apply H1; lia]|].
  assert (Hi : In "N/A,I"%string (frame_lines "N/A,I"%string)) by (vm_compute; left; reflexivity).
  assert (Hu : ffprobe_line_unparseable "N/A,I"%string = true) by (vm_compute; reflexivity).
  split; [exact Hi|]. split; [exact Hu|]. exact (H2 Hi Hu).
Defined.

(** Extra (scanner index keys): on a successful scan the frame indices of
    the GOP index returned by [get_gop_offsets] are strictly increasing, and
    each lies in [[0, nframe)]. *)
Theorem get_gop_offsets_keys (ex : bool) (r : proc_result) (idx : gop_index) (n : Z) :
  get_gop_offsets ex r = inr (Some idx, Some n) ->
  StronglySorted Z.lt (map fst idx) /\ Forall (fun e => 0 <= fst e < n) idx.
Proof.
  destruct r as [rc out]. unfold get_gop_offsets.
  destruct (negb (rc =? 0)); [intros H; discriminate H|].
  destruct (iframes_of (number_lines 0 (frame_lines out)) []) as [e|res] eqn:E; intros H; [discriminate H|].
  inversion H; subst. apply iframes_of_number_lines in E; [| constructor | constructor].
  exact E.
Qed.

Lemma get_gop_offsets_keys_witness :
  let out := "0,I
188,P
376,I"%string in
  get_gop_offsets true (Completed 0 out) = inr (Some [(0, 0); (2, 376)], Some 3) /\
  StronglySorted Z.lt [0; 2] /\ Forall (fun e => 0 <= fst e < 3) [(0, 0); (2, 376)].
Proof.
  intros out.
  assert (H : get_gop_offsets true (Completed 0 out) = inr (Some [(0, 0); (2, 376)], Some 3))
    by (vm_compute; reflexivity).
  split; [exact H|]. exact (get_gop_offsets_keys true (Completed 0 out) _ _ H).
Defined.

(** Extra (objects stored by a successful upload): when [upload_video]
    succeeds, the video task started with index i stores exactly the key
    [cam_i.ts] under [video/], for i = 1 ... n over the n video files; the
    background task with index j stores exactly [cam_j.png] under
    [background/], for j = 1 ... m; and the calibration step stores
    [calibration/calibration_ba.json]; all under [key_prefix/uuid_dir/].
    The tasks of a group run concurrently, so these keys come with no
    order between the tasks of a group. *)
Theorem upload_video_object_keys (E : env) (key_prefix uuid_dir : string)
    (videos backgrounds : list upload_file) (calibration : upload_file) :
  let run := upload_video E key_prefix uuid_dir videos backgrounds calibration in
  outcome run = inr tt ->
  map put_keys (video_traces run) =
    map (fun i => [video_key key_prefix uuid_dir i]) (seq 1 (List.length videos)) /\
  map put_keys (background_traces run) =
    map (fun i => [background_key key_prefix uuid_dir i]) (seq 1 (List.length backgrounds)) /\
  put_keys (calibration_trace run) = [calibration_key key_prefix uuid_dir].
Proof.
  intros run. subst run. unfold upload_video.
  pose proof (group_keys (process_video_file E key_prefix uuid_dir) (video_key key_prefix uuid_dir)
                (group_tasks videos) (process_video_file_keys E key_prefix uuid_dir)) as Hv.
  pose proof (group_keys (process_background_file E key_prefix uuid_dir) (background_key key_prefix uuid_dir)
                (group_tasks backgrounds) (process_background_file_keys E key_prefix uuid_dir)) as Hb.
  rewrite !length_group_tasks_seq in *. unfold video_group, background_group.
  destruct (gather (map _ (group_tasks videos))) as [tr_v ok_v]. simpl in Hv.
  destruct ok_v; [|simpl; intros H; discriminate H].
  destruct (gather (map _ (group_tasks backgrounds))) as [tr_b ok_b]. simpl in Hb.
  destruct ok_b; [|simpl; intros H; discriminate H].
  destruct (negb (calibration_ext_ok calibration)); [simpl; intros H; discriminate H|].
  unfold upload. destruct (upload_ok E (calibration_key key_prefix uuid_dir)); simpl; [|intros H; discriminate H].
  destruct (respond_ok E); simpl; [|intros H; discriminate H].
  intros _. split; [now apply Hv|]. split; [now apply Hb | reflexivity].
Qed.

Lemma upload_video_object_keys_witness :
  let E := {| transcode := fun _ _ => inr []; extract := fun _ _ => inr []; upload_ok := fun _ => true;
              respond_ok := true |} in
  let vids := [{| filename := Some "b.ts"; data := [] |}; {| filename := Some "a.mp4"; data := [] |}]%string in
  let bgs := [{| filename := Some "a.png"; data := [] |}]%string in
  let cal := {| filename := Some "c.json"; data := [] |}%string in
  outcome (upload_video E "kp" "u1" vids bgs cal) = inr tt /\
  map put_keys (video_traces (upload_video E "kp" "u1" vids bgs cal)) =
    [["kp/u1/video/cam_1.ts"]; ["kp/u1/video/cam_2.ts"]]%string /\
  map put_keys (background_traces (upload_video E "kp" "u1" vids bgs cal)) =
    [["kp/u1/background/cam_1.png"]]%string /\
  put_keys (calibration_trace (upload_video E "kp" "u1" vids bgs cal)) =
    ["kp/u1/calibration/calibration_ba.json"]%string.
Proof.
  intros E vids bgs cal.
  assert (Ho : outcome (upload_video E "kp" "u1" vids bgs cal) = inr tt) by (vm_compute; reflexivity).
  split; [exact Ho|].
  destruct (upload_video_object_keys E "kp" "u1" vids bgs cal Ho) as (H1 & H2 & H3).
  rewrite H1, H2, H3. split; [vm_compute; reflexivity|]. split; vm_compute; reflexivity.
Defined.

(** Extra (worker pool size): for a non-negative CPU count the semaphore
    size [max_workers] is at least 1 and at most [cpu_count or 1]; with at
    least two CPUs it is strictly smaller than the CPU count. *)
Theorem max_workers_bounds (c : option Z) :
  (forall n, c = Some n -> 0 <= n) ->
  1 <= max_workers c <= cpu_count_or_1 c /\
  (2 <= cpu_count_or_1 c -> max_workers c < cpu_count_or_1 c).
Proof.
  intros Hc. assert (H1 : 1 <= cpu_count_or_1 c).
  { unfold cpu_count_or_1. destruct c as [n|]; [|lia]. specialize (Hc n eq_refl).
    destruct (Z.eqb_spec n 0); lia. }
  unfold max_workers. set (n := cpu_count_or_1 c) in *.
  assert (0 <= n * 4 / 5) by (apply Z.div_pos; lia).
  assert (n * 4 / 5 * 5 <= n * 4) by (rewrite Z.mul_comm; apply Z.mul_div_le; lia).
  split; [lia|]. intros H2. lia.
Qed.

Lemma max_workers_bounds_witness :
  (forall n, Some 5 = Some n -> 0 <= n) /\ max_workers (Some 5) = 4 /\
  1 <= max_workers (Some 5) <= cpu_count_or_1 (Some 5).
Proof.
  assert (H : forall n, Some 5 = Some n -> 0 <= n) by (intros n Hn; inversion Hn; lia).
  split; [exact H|]. split; [reflexivity|]. exact (proj1 (max_workers_bounds (Some 5) H)).
Defined.

(** Extra (paged listing): with no bucket configured [list_tos_objects]
    raises [RuntimeError]; otherwise, when the store answers with a chain of
    pages (each truncated page but the last carrying a non-empty
    continuation token, which the next call sends) and the loop is given at
    least as many calls, it returns the keys of all pages in order, skipping
    entries without a key. *)
Theorem list_tos_objects_pages (fuel : nat) (bucket : string)
    (service : option string -> exn + list_page) (ps : list list_page) :
  list_tos_objects fuel EmptyString service = Some (inl (RuntimeError "TOS_BUCKET 未配置"%string)) /\
  (bucket <> EmptyString -> listing_run service None ps -> (List.length ps <= fuel)%nat ->
   list_tos_objects fuel bucket service = Some (inr (List.concat (map page_keys ps)))).
Proof.
  split; [reflexivity|]. intros Hb Hr Hf. unfold list_tos_objects.
  apply String.eqb_neq in Hb. rewrite Hb. apply (list_loop_run _ _ _ Hr _ [] Hf).
Qed.

Lemma list_tos_objects_pages_witness :
  let page1 := {| contents := [Some "kp/u1/video/cam_1.ts"%string; None]; is_truncated := true;
                  next_continuation_token := Some "t1"%string |} in
  let page2 := {| contents := [Some "kp/u1/video/cam_2.ts"%string]; is_truncated := false;
                  next_continuation_token := None |} in
  let service := fun tok : option string => match tok with None => inr page1 | Some _ => inr page2 end in
  listing_run service None [page1; page2] /\
  list_tos_objects 2 "bkt"%string service = Some (inr ["kp/u1/video/cam_1.ts"%string; "kp/u1/video/cam_2.ts"%string]).
Proof.
  intros page1 page2 service.
  assert (Hr : listing_run service None [page1; page2]).
  { apply (listing_more service None page1 "t1"); try reflexivity; [discriminate|].
    apply listing_last; [reflexivity | left; reflexivity]. }
  split; [exact Hr|].
  exact (proj2 (list_tos_objects_pages 2 "bkt"%string service [page1; page2]) ltac:(discriminate) Hr ltac:(unfold header_size_of; simpl; lia)).
Defined.

(** Extra (delete prefix of an uploaded batch): for a bucket name without
    ['/'] and a non-empty [uuid_dir] without ['/'], the prefix [delete_video]
    derives from the [tos_path] that [upload_video] stores is
    [key_prefix/uuid_dir/]; it starts every key the batch stores and no key
    stored by a batch with another such directory. *)
Theorem delete_prefix_of_upload (bucket key_prefix uuid_dir other_dir : string) (i : nat) :
  str_has "/" bucket = false -> uuid_dir <> EmptyString -> str_has "/" uuid_dir = false ->
  let P := (key_prefix ++ "/" ++ uuid_dir ++ "/")%string in
  delete_prefix (upload_tos_path bucket key_prefix uuid_dir) = inr P /\
  String.prefix P (video_key key_prefix uuid_dir i) = true /\
  String.prefix P (background_key key_prefix uuid_dir i) = true /\
  String.prefix P (calibration_key key_prefix uuid_dir) = true /\
  (str_has "/" other_dir = false -> other_dir <> uuid_dir ->
   String.prefix P (video_key key_prefix other_dir i) = false /\
   String.prefix P (background_key key_prefix other_dir i) = false /\
   String.prefix P (calibration_key key_prefix other_dir) = false).
Proof.
  intros Hb Hn Hs P. subst P.
  split; [apply delete_prefix_upload; assumption|].
  unfold video_key, background_key, calibration_key.
  rewrite !prefix_app_cancel.
  split; [reflexivity|]. split; [reflexivity|]. split; [reflexivity|].
  intros Ho Hne.
  assert (Hneg : forall t, String.prefix (uuid_dir ++ "/") (other_dir ++ String "/" t) = false).
  { intros t. destruct (String.prefix _ _) eqn:E; [|reflexivity].
    apply prefix_dir_eq in E; [congruence | assumption | assumption]. }
  split; [|split]; apply Hneg.
Qed.

Lemma delete_prefix_of_upload_witness :
  str_has "/" "bkt" = false /\ "u1"%string <> EmptyString /\ str_has "/" "u1" = false /\
  delete_prefix (upload_tos_path "bkt" "kp" "u1") = inr "kp/u1/"%string /\
  String.prefix "kp/u1/" (video_key "kp" "u2" 1) = false.
Proof.
  assert (H1 : str_has "/" "bkt" = false) by reflexivity.
  assert (H2 : "u1"%string <> EmptyString) by discriminate.
  assert (H3 : str_has "/" "u1" = false) by reflexivity.
  destruct (delete_prefix_of_upload "bkt" "kp" "u1" "u2" 1 H1 H2 H3) as (Hd & _ & _ & _ & Ho).
  split; [exact H1|]. split; [exact H2|]. split; [exact H3|]. split; [exact Hd|].
  apply (Ho eq_refl). discriminate.
Defined.

(** Extra ([delete_video]): the row is deleted exactly when the caller is a
    superuser, no job refers to the video, the row exists, its prefix is
    derived and listed, every listed key is deleted, and the database commit
    succeeds; the response is then [ok]. Any attempted object deletion
    implies a superuser caller, no jobs, and that the attempted keys are
    exactly the listing of the video's prefix. *)
Theorem delete_video_row_deleted (u : User.t) (found : option VideoRow.t) (job_count : nat)
    (listing : string -> string + list string) (delete_ok : string -> bool) (db_ok : bool) :
  let run := delete_video u found job_count listing delete_ok db_ok in
  (row_deleted run = true <->
   User.is_superuser u = true /\ job_count = O /\ db_ok = true /\
   exists v prefix keys, found = Some v /\ delete_prefix (VideoRow.tos_path v) = inr prefix /\
     listing prefix = inr keys /\ forallb delete_ok keys = true) /\
  (row_deleted run = true -> response run = inr tt) /\
  (attempted run <> [] ->
   User.is_superuser u = true /\ job_count = O /\
   exists v prefix, found = Some v /\ delete_prefix (VideoRow.tos_path v) = inr prefix /\
     listing prefix = inr (attempted run)).
Proof.
  intros run. subst run. unfold delete_video.
  destruct (User.is_superuser u) eqn:Hsu; simpl negb; cbv iota;
    [|simpl; split; [split; [intros H; discriminate H | intros [H _]; discriminate H]|];
      split; [intros H; discriminate H | intros H; contradiction H; reflexivity]].
  destruct found as [v|];
    [|simpl; split; [split; [intros H; discriminate H | intros (_ & _ & _ & v & p & k & H & _); discriminate H]|];
      split; [intros H; discriminate H | intros H; contradiction H; reflexivity]].
  destruct (Nat.ltb_spec 0 job_count) as [Hj|Hj].
  { simpl; split; [split; [intros H; discriminate H | intros (_ & H & _); lia]|];
      split; [intros H; discriminate H | intros H; contradiction H; reflexivity]. }
  assert (Hj0 : job_count = O) by lia. clear Hj.
  destruct (delete_prefix (VideoRow.tos_path v)) as [e|prefix] eqn:Hdp.
  { simpl; split; [split; [intros H; discriminate H | intros (_ & _ & _ & v' & p & k & H & H' & _); inversion H; subst; congruence]|];
      split; [intros H; discriminate H | intros H; contradiction H; reflexivity]. }
  destruct (listing prefix) as [msg|keys] eqn:Hl.
  - destruct (delete_by_prefix_outcome (inl msg) delete_ok) as [H _].
    rewrite (H msg eq_refl). simpl.
    split; [split; [intros H'; discriminate H' | intros (_ & _ & _ & v' & p & k & Hv & Hp & Hk & _)]|].
    + inversion Hv; subst v'. rewrite Hdp in Hp. inversion Hp; subst p. congruence.
    + split; [intros H'; discriminate H' | intros H'; contradiction H'; reflexivity].
  - destruct (delete_by_prefix_outcome (inr keys) delete_ok) as [_ H].
    destruct (H keys eq_refl) as (Hf & Hs & He). clear H.
    destruct (delete_tos_objects_by_prefix (inr keys) delete_ok) as [tried r]. simpl in Hf, Hs, He. subst tried.
    destruct r as [e|[]].
    + destruct (He e eq_refl) as [m ->]. simpl.
      split; [split; [intros H'; discriminate H' | intros (_ & _ & _ & v' & p & k & Hv & Hp & Hk & Hok)]|].
      * inversion Hv; subst v'. rewrite Hdp in Hp. inversion Hp; subst p. rewrite Hl in Hk.
        inversion Hk; subst k. apply Hs in Hok. discriminate Hok.
      * split; [intros H'; discriminate H'|]. intros _. split; [first [exact Hsu | reflexivity]|]. split; [exact Hj0|]. eauto.
    + destruct db_ok; simpl.
      * split; [split; [intros _ | intros _; reflexivity]|].
        -- split; [first [exact Hsu | reflexivity]|]. split; [exact Hj0|]. split; [reflexivity|].
           exists v, prefix, keys. split; [reflexivity|]. split; [exact Hdp|]. split; [exact Hl|]. apply Hs; reflexivity.
        -- split; [intros _; reflexivity|]. intros _. split; [first [exact Hsu | reflexivity]|]. split; [exact Hj0|]. eauto.
      * split; [split; [intros H'; discriminate H' | intros (_ & _ & H' & _); discriminate H']|].
        split; [intros H'; discriminate H'|]. intros _. split; [first [exact Hsu | reflexivity]|]. split; [exact Hj0|]. eauto.
Qed.

(** Extra ([list_videos]): the SQL prefilter of a non-superuser's query
    removes no visible row, so [list_videos] is [can_user_view_video] applied
    to the whole table; a listed row is one of the table for which
    [get_video] succeeds. *)
Theorem list_videos_visible (json_loads : string -> option json) (rows : list VideoRow.t) (u : User.t) :
  list_videos json_loads rows u = filter_exn (fun v => can_user_view_video json_loads v u) rows /\
  (forall ys, list_videos json_loads rows u = inr ys ->
   forall v, In v ys <-> In v rows /\ get_video json_loads (Some v) u = inr v).
Proof.
  split; [apply list_videos_eq|]. intros ys H v. rewrite list_videos_eq in H.
  rewrite (filter_exn_spec _ _ _ H v). unfold get_video.
  destruct (can_user_view_video json_loads v u) as [e|[|]]; split; intros [H1 H2]; split; auto;
    discriminate H2.
Qed.

(** Extra (admin visibility list): after a superuser sets
    [visible_to_user_ids] to a list [L] (with [json.loads] reading back the
    dumped list), a user who is neither superuser nor owner can view the row
    exactly when it is public or the user's id is in [L]; the owner is kept
    and [is_public] is the new value when given, the old one otherwise. *)
Theorem update_video_visibility_admin_list (json_loads : string -> option json)
    (v : VideoRow.t) (upd : VisibilityUpdate.t) (u : User.t) (L : list Z) (r : VideoRow.t) :
  User.is_superuser u = true ->
  VisibilityUpdate.visible_to_user_ids upd = Some L ->
  json_loads (dumps_ints L) = Some (JArr (map JInt L)) ->
  update_video_visibility (Some v) upd u = inr r ->
  VideoRow.owner_id r = VideoRow.owner_id v /\
  VideoRow.is_public r = match VisibilityUpdate.is_public upd with Some b => b | None => VideoRow.is_public v end /\
  forall w : User.t, User.is_superuser w = false -> VideoRow.owner_id v <> User.id w ->
    can_user_view_video json_loads r w = inr (VideoRow.is_public r || existsb (Z.eqb (User.id w)) L).
Proof.
  intros Hsu Hvis Hload Hup. unfold update_video_visibility in Hup. rewrite Hsu, Hvis in Hup.
  rewrite andb_false_r, andb_false_r in Hup. simpl in Hup.
  assert (Hv1 : exists v1, VideoRow.owner_id v1 = VideoRow.owner_id v /\
            VideoRow.is_public v1 = match VisibilityUpdate.is_public upd with Some b => b | None => VideoRow.is_public v end /\
            r = match L with [] => set_visible_to_user_ids v1 None
                        | _ => set_visible_to_user_ids v1 (Some (dumps_ints L)) end).
  { destruct (VisibilityUpdate.is_public upd) as [b|]; [exists (set_is_public v b) | exists v];
      (split; [reflexivity|]); (split; [reflexivity|]); inversion Hup; reflexivity. }
  clear Hup. destruct Hv1 as (v1 & Ho & Hp & ->).
  destruct L as [|z L']; simpl; (split; [exact Ho|]); (split; [exact Hp|]);
    intros w Hw Hnot; unfold can_user_view_video; simpl; rewrite Hw, Ho;
    (replace (VideoRow.owner_id v =? User.id w) with false by (symmetry; apply Z.eqb_neq; exact Hnot)).
  - destruct (VideoRow.is_public v1); reflexivity.
  - destruct (VideoRow.is_public v1); [reflexivity|].
    replace (String.eqb (dumps_ints (z :: L')) EmptyString) with false
      by (symmetry; apply String.eqb_neq, dumps_ints_nonempty).
    unfold parse_visible_user_ids.
    replace (String.eqb (dumps_ints (z :: L')) EmptyString) with false
      by (symmetry; apply String.eqb_neq, dumps_ints_nonempty).
    rewrite Hload. simpl py_in_json. rewrite existsb_py_eq_int_map_JInt, (Z.eqb_sym z (User.id w)). reflexivity.
Qed.

Lemma update_video_visibility_admin_list_witness :
  let loads := fun s => if String.eqb s (dumps_ints [5]) then Some (JArr [JInt 5]) else None in
  let v := {| VideoRow.id := 7; VideoRow.owner_id := 1; VideoRow.studio := "s"; VideoRow.producer := "p";
              VideoRow.production := "q"; VideoRow.action := "a"; VideoRow.tos_path := "tos://b/kp/u1/";
              VideoRow.status := "ready"; VideoRow.is_public := false;
              VideoRow.visible_to_user_ids := None |}%string in
  let upd := {| VisibilityUpdate.is_public := None; VisibilityUpdate.visible_to_user_ids := Some [5] |} in
  let admin := {| User.id := 9; User.is_superuser := true |} in
  let r := set_visible_to_user_ids v (Some (dumps_ints [5])) in
  update_video_visibility (Some v) upd admin = inr r /\
  can_user_view_video loads r {| User.id := 5; User.is_superuser := false |} = inr true /\
  can_user_view_video loads r {| User.id := 6; User.is_superuser := false |} = inr false.
Proof.
  intros loads v upd admin r.
  assert (Hu : update_video_visibility (Some v) upd admin = inr r) by reflexivity.
  assert (Hl : loads (dumps_ints [5]) = Some (JArr (map JInt [5]))) by reflexivity.
  destruct (update_video_visibility_admin_list loads v upd admin [5] r eq_refl eq_refl Hl Hu) as (_ & _ & H).
  split; [exact Hu|]. split.
  - rewrite (H {| User.id := 5; User.is_superuser := false |} eq_refl); [reflexivity | discriminate].
  - rewrite (H {| User.id := 6; User.is_superuser := false |} eq_refl); [reflexivity | discriminate].
Defined.

(** Extra ([update_video_visibility]): a successful update needs the row and
    an owner or superuser caller, and changes only [is_public] and
    [visible_to_user_ids]; for a caller who is not a superuser the request
    carried no user list and [visible_to_user_ids] is unchanged. *)
Theorem update_video_visibility_success (found : option VideoRow.t) (upd : VisibilityUpdate.t)
    (u : User.t) (r : VideoRow.t) :
  update_video_visibility found upd u = inr r ->
  exists v, found = Some v /\
    (VideoRow.owner_id v = User.id u \/ User.is_superuser u = true) /\
    VideoRow.id r = VideoRow.id v /\ VideoRow.owner_id r = VideoRow.owner_id v /\
    VideoRow.studio r = VideoRow.studio v /\ VideoRow.producer r = VideoRow.producer v /\
    VideoRow.production r = VideoRow.production v /\ VideoRow.action r = VideoRow.action v /\
    VideoRow.tos_path r = VideoRow.tos_path v /\ VideoRow.status r = VideoRow.status v /\
    (User.is_superuser u = false ->
     VisibilityUpdate.visible_to_user_ids upd = None /\
     VideoRow.visible_to_user_ids r = VideoRow.visible_to_user_ids v).
Proof.
  intros H. destruct found as [v|]; [|discriminate H]. exists v. split; [reflexivity|].
  unfold update_video_visibility in H.
  destruct (Z.eqb_spec (VideoRow.owner_id v) (User.id u)) as [Ho|Ho];
    destruct (User.is_superuser u) eqn:Hs; simpl in H.
  - destruct (VisibilityUpdate.is_public upd); destruct (VisibilityUpdate.visible_to_user_ids upd) as [[|z l]|];
      inversion H; subst; simpl; repeat split; auto; try (intros Hf; discriminate Hf); congruence.
  - destruct (VisibilityUpdate.visible_to_user_ids upd) as [l|]; [discriminate H|].
    destruct (VisibilityUpdate.is_public upd); inversion H; subst; simpl; repeat split; auto.
  - destruct (VisibilityUpdate.is_public upd); destruct (VisibilityUpdate.visible_to_user_ids upd) as [[|z l]|];
      inversion H; subst; simpl; repeat split; auto; try (intros Hf; discriminate Hf); congruence.
  - discriminate H.
Qed.

Lemma update_video_visibility_success_witness :
  let v := {| VideoRow.id := 7; VideoRow.owner_id := 1; VideoRow.studio := "s"; VideoRow.producer := "p";
              VideoRow.production := "q"; VideoRow.action := "a"; VideoRow.tos_path := "tos://b/kp/u1/";
              VideoRow.status := "ready"; VideoRow.is_public := false;
              VideoRow.visible_to_user_ids := Some "[3]" |}%string in
  let upd := {| VisibilityUpdate.is_public := Some true; VisibilityUpdate.visible_to_user_ids := None |} in
  let owner := {| User.id := 1; User.is_superuser := false |} in
  update_video_visibility (Some v) upd owner = inr (set_is_public v true) /\
  VideoRow.visible_to_user_ids (set_is_public v true) = VideoRow.visible_to_user_ids v.
Proof.
  intros v upd owner.
  assert (Hu : update_video_visibility (Some v) upd owner = inr (set_is_public v true)) by reflexivity.
  destruct (update_video_visibility_success (Some v) upd owner _ Hu)
    as (v' & Hv & _ & _ & _ & _ & _ & _ & _ & _ & _ & Hvis).
  injection Hv as <-. split; [exact Hu | apply (Hvis eq_refl)].
Defined.

(** Extra ([update_video]): the outcome depends on the caller's id only
    (the superuser flag is never consulted, so an administrator who is not
    the owner is refused); a successful update needs an owner caller, keeps
    id, owner, path, status and visibility, and sets each metadata field to
    the value given or keeps it. *)
Theorem update_video_owner_only (found : option VideoRow.t) (upd : VideoUpdate.t) (u : User.t) (r : VideoRow.t) :
  (forall u', User.id u' = User.id u -> update_video found upd u' = update_video found upd u) /\
  (update_video found upd u = inr r ->
   exists v, found = Some v /\ VideoRow.owner_id v = User.id u /\
     VideoRow.id r = VideoRow.id v /\ VideoRow.owner_id r = VideoRow.owner_id v /\
     VideoRow.tos_path r = VideoRow.tos_path v /\ VideoRow.status r = VideoRow.status v /\
     VideoRow.is_public r = VideoRow.is_public v /\
     VideoRow.visible_to_user_ids r = VideoRow.visible_to_user_ids v /\
     VideoRow.studio r = match VideoUpdate.studio upd with Some x => x | None => VideoRow.studio v end /\
     VideoRow.producer r = match VideoUpdate.producer upd with Some x => x | None => VideoRow.producer v end /\
     VideoRow.production r = match VideoUpdate.production upd with Some x => x | None => VideoRow.production v end /\
     VideoRow.action r = match VideoUpdate.action upd with Some x => x | None => VideoRow.action v end).
Proof.
  split.
  - intros u' Hid. unfold update_video. rewrite Hid. reflexivity.
  - intros H. destruct found as [v|]; [|discriminate H]. exists v. split; [reflexivity|].
    unfold update_video in H. destruct (Z.eqb_spec (VideoRow.owner_id v) (User.id u)) as [Ho|Ho];
      simpl in H; [|discriminate H].
    inversion H; subst; simpl. repeat split; auto.
Qed.

(** Extra ([download_video_zip] file collection): a successful collection
    comes from a visible row, a derivable uuid path and valid types; the
    listed prefixes are [uuid_path/type/] per requested type; every
    collected file has a requested type, a key listed under its type's
    prefix, the signed URL of that key and the key's last segment as name;
    and when every key listed for a requested type can be signed, all of
    them are collected. *)
Theorem download_video_zip_files (json_loads : string -> option json)
    (found : option VideoRow.t) (u : User.t) (file_types : list string)
    (listing : string -> exn + list string) (sign : string -> option string)
    (prefixes : list string) (files : list FileDownloadInfo.t) :
  download_video_zip json_loads found u file_types listing sign = (prefixes, inr files) ->
  exists v uuid_path,
    found = Some v /\ can_user_view_video json_loads v u = inr true /\
    tos_uuid_path (VideoRow.tos_path v) = inr uuid_path /\
    forallb valid_file_type file_types = true /\
    prefixes = map (fun t => uuid_path ++ "/" ++ t ++ "/")%string file_types /\
    files <> [] /\
    (forall f, In f files ->
       In (FileDownloadInfo.file_type f) file_types /\
       exists keys, listing (uuid_path ++ "/" ++ FileDownloadInfo.file_type f ++ "/")%string = inr keys /\
         In (FileDownloadInfo.object_key f) keys /\
         sign (FileDownloadInfo.object_key f) = Some (FileDownloadInfo.download_url f) /\
         FileDownloadInfo.filename f = key_filename (FileDownloadInfo.object_key f)) /\
    (forall t keys k, In t file_types ->
       listing (uuid_path ++ "/" ++ t ++ "/")%string = inr keys ->
       (forall k', In k' keys -> sign k' <> None) -> In k keys ->
       exists f, In f files /\ FileDownloadInfo.object_key f = k /\ FileDownloadInfo.file_type f = t).
Proof.
  intros H. unfold download_video_zip in H.
  destruct found as [v|]; [|discriminate H].
  destruct (can_user_view_video json_loads v u) as [e|[|]] eqn:Hc; try discriminate H.
  destruct (tos_uuid_path (VideoRow.tos_path v)) as [e|up] eqn:Ht; [discriminate H|].
  destruct (forallb valid_file_type file_types) eqn:Hv; simpl negb in H; cbv iota in H; [|discriminate H].
  set (F := flat_map _ file_types) in H.
  assert (HF : files = F /\ prefixes = map (fun t => up ++ "/" ++ t ++ "/")%string file_types /\ F <> []).
  { destruct F as [|f0 F']; inversion H; subst. split; [reflexivity|]. split; [reflexivity|]. discriminate. }
  destruct HF as (-> & -> & Hne). clear H.
  exists v, up. do 6 (split; [first [reflexivity | assumption]|]). split.
  - intros f Hf. subst F. apply in_flat_map in Hf as (t & Ht' & Hf).
    destruct (listing (up ++ "/" ++ t ++ "/")%string) as [e|keys] eqn:Hl; [contradiction Hf|].
    destruct (collect_keys_sound _ _ _ _ Hf) as (H1 & H2 & H3 & H4). subst t.
    split; [exact Ht'|]. exists keys. auto.
  - intros t keys k Htin Hl Hall Hk.
    destruct (collect_keys_complete t sign keys k Hall Hk) as (f & H1 & H2 & H3).
    exists f. split; [|auto]. subst F. apply in_flat_map. exists t. split; [exact Htin|].
    rewrite Hl. exact H1.
Qed.

Lemma download_video_zip_files_witness :
  let v := {| VideoRow.id := 7; VideoRow.owner_id := 1; VideoRow.studio := "s"; VideoRow.producer := "p";
              VideoRow.production := "q"; VideoRow.action := "a"; VideoRow.tos_path := "tos://b/kp/u1/";
              VideoRow.status := "ready"; VideoRow.is_public := true;
              VideoRow.visible_to_user_ids := None |}%string in
  let u := {| User.id := 2; User.is_superuser := false |} in
  let listing := fun p => if String.eqb p "kp/u1/video/" then inr ["kp/u1/video/cam_1.ts"%string] else inl IndexError in
  let sign := fun k => Some ("https://x/" ++ k)%string in
  let res := download_video_zip (fun _ => None) (Some v) u ["video"%string; "background"%string] listing sign in
  res = (["kp/u1/video/"%string; "kp/u1/background/"%string],
         inr [{| FileDownloadInfo.object_key := "kp/u1/video/cam_1.ts";
                 FileDownloadInfo.download_url := "https://x/kp/u1/video/cam_1.ts";
                 FileDownloadInfo.filename := "cam_1.ts"; FileDownloadInfo.file_type := "video" |}])%string /\
  exists v0 up, Some v = Some v0 /\ tos_uuid_path (VideoRow.tos_path v0) = inr up.
Proof.
  intros v u listing sign res.
  assert (H : res = (["kp/u1/video/"%string; "kp/u1/background/"%string],
         inr [{| FileDownloadInfo.object_key := "kp/u1/video/cam_1.ts";
                 FileDownloadInfo.download_url := "https://x/kp/u1/video/cam_1.ts";
                 FileDownloadInfo.filename := "cam_1.ts"; FileDownloadInfo.file_type := "video" |}])%string)
    by (vm_compute; reflexivity).
  split; [exact H|].
  destruct (download_video_zip_files _ _ _ _ _ _ _ _ H) as (v0 & up & Hv & _ & Ht & _). eauto.
Defined.

